(* ===================================================================== *)
(* issue-metrics: time spent in statuses (statuses.py)                    *)
(*                                                                       *)
(* A shallow embedding of get_status_events, get_status_metrics and       *)
(* get_stats_time_in_statuses, and the properties of the accumulator and  *)
(* of the aggregator.                                                     *)
(*                                                                       *)
(* Conventions.                                                           *)
(*  - An instant (a timezone-aware datetime) is a Z: microseconds since   *)
(*    the epoch.  A timedelta is a Z: a signed number of microseconds.    *)
(*    Python bounds both (years 1..9999, +-999999999 days); Z does not.   *)
(*  - A Python dict keyed by status names is a gmap string; the value     *)
(*    None is the option None *inside* the map, a missing key is a        *)
(*    failed lookup.                                                      *)
(*  - An exception is the left injection of the result type.              *)
(*  - numpy computes on binary64 floats; the aggregator is modelled on    *)
(*    exact rationals (Q).                                                *)
(* ===================================================================== *)

From Stdlib Require Import ZArith QArith Qround String Ascii List Lia.
From stdpp Require Import gmap strings list fin_maps.

#[local] Set Warnings "-clear-no-such-hyp".

Local Open Scope string_scope.
Local Open Scope list_scope.
Local Open Scope Z_scope.

(* --------------------------------------------------------------------- *)
(* Exceptions and the result monad                                        *)
(* --------------------------------------------------------------------- *)

Inductive exn : Type :=
| JSONDecodeError
| KeyError
| IndexError
| TypeError
| ValueError.

Definition result (A : Type) : Type := exn + A.

Definition ret {A} (x : A) : result A := inr x.
Definition raise {A} (e : exn) : result A := inl e.

Definition bind {A B} (c : result A) (k : A -> result B) : result B :=
  match c with
  | inl e => inl e
  | inr x => k x
  end.

Notation "'let*' x ':=' c 'in' k" := (bind c (fun x => k))
  (at level 10, x name, c at level 100, k at level 200).

(* for x in xs: acc = body(acc, x), aborting at the first exception *)
Fixpoint for_each {A St} (body : St -> A -> result St) (xs : list A)
  (acc : St) : result St :=
  match xs with
  | [] => ret acc
  | x :: rest => let* acc' := body acc x in for_each body rest acc'
  end.

(* the same loop when the body also sees the index of the iteration *)
Fixpoint for_each_i {A St} (body : nat -> St -> A -> result St) (i : nat)
  (xs : list A) (acc : St) : result St :=
  match xs with
  | [] => ret acc
  | x :: rest => let* acc' := body i acc x in for_each_i body (S i) rest acc'
  end.

(* --------------------------------------------------------------------- *)
(* Time                                                                   *)
(* --------------------------------------------------------------------- *)

Abbreviation datetime := Z (only parsing).
Abbreviation timedelta := Z (only parsing).

Definition seconds (n : Z) : timedelta := n * 1000000.
Definition minutes (n : Z) : timedelta := seconds (60 * n).

(* --------------------------------------------------------------------- *)
(* The value json.loads returns                                           *)
(* --------------------------------------------------------------------- *)

(* A dict keeps its keys in insertion order and has no two equal keys; it
   is an association list here.  json's NaN and Infinity are not
   represented: they behave as any other non-zero number below. *)
#[local] Unset Elimination Schemes.
Inductive json : Type :=
| JNull
| JBool (b : bool)
| JNum (q : Q)
| JStr (s : string)
| JArr (items : list json)
| JObj (fields : list (string * json)).
#[local] Set Elimination Schemes.

(* bool(v) *)
Definition truthy (v : json) : bool :=
  match v with
  | JNull => false
  | JBool b => b
  | JNum q => negb (Qeq_bool q 0)
  | JStr s => negb (String.eqb s "")
  | JArr items => match items with [] => false | _ => true end
  | JObj fields => match fields with [] => false | _ => true end
  end.

Fixpoint assoc (k : string) (fields : list (string * json)) : option json :=
  match fields with
  | [] => None
  | (k', v) :: rest => if String.eqb k k' then Some v else assoc k rest
  end.

(* v[k] for a str k *)
Definition getitem (v : json) (k : string) : result json :=
  match v with
  | JObj fields =>
      match assoc k fields with
      | Some x => ret x
      | None => raise KeyError
      end
  | _ => raise TypeError
  end.

(* v[0] *)
Definition getitem0 (v : json) : result json :=
  match v with
  | JArr items =>
      match items with
      | x :: _ => ret x
      | [] => raise IndexError
      end
  | JObj _ => raise KeyError
  | JStr s =>
      match s with
      | String c _ => ret (JStr (String c EmptyString))
      | EmptyString => raise IndexError
      end
  | _ => raise TypeError
  end.

Fixpoint chars (s : string) : list json :=
  match s with
  | EmptyString => []
  | String c rest => JStr (String c EmptyString) :: chars rest
  end.

(* list(iter(v)) *)
Definition iterate (v : json) : result (list json) :=
  match v with
  | JArr items => ret items
  | JObj fields => ret (map (fun kv => JStr (fst kv)) fields)
  | JStr s => ret (chars s)
  | _ => raise TypeError
  end.

Fixpoint is_substring (k s : string) : bool :=
  if String.prefix k s then true
  else match s with
       | EmptyString => false
       | String _ rest => is_substring k rest
       end.

Definition is_str (k : string) (v : json) : bool :=
  match v with
  | JStr s => String.eqb k s
  | _ => false
  end.

(* k in v for a str k *)
Definition contains (k : string) (v : json) : result bool :=
  match v with
  | JObj fields => ret (match assoc k fields with Some _ => true | None => false end)
  | JArr items => ret (existsb (is_str k) items)
  | JStr s => ret (is_substring k s)
  | _ => raise TypeError
  end.

(* v != "" *)
Definition not_empty_str (v : json) : bool :=
  match v with
  | JStr s => negb (String.eqb s "")
  | _ => true
  end.

(* --------------------------------------------------------------------- *)
(* Issues and status events                                               *)
(* --------------------------------------------------------------------- *)

(* What requests.get, BeautifulSoup.find and json.loads make of the page of
   the issue: no script tag with the embedded data, or such a tag and the
   outcome of json.loads on its string. *)
Inductive page : Type :=
| NoScriptTag
| ScriptTag (loaded : result json).

(* issue.created_at and issue.closed_at are ISO strings in the source,
   read with datetime.fromisoformat; the record holds the instants.
   html_content is the page that requests.get fetches from
   issue.issue.html_url.  The calls of print are left out. *)
Record Issue : Type := {
  created_at : datetime;
  closed_at : option datetime;
  state : string;
  html_content : page
}.

Inductive event_type : Type := Statused | Unstatused.

#[global] Instance event_type_eq_dec : EqDecision event_type.
Proof. solve_decision. Defined.

Record StatusEvent : Type := {
  createdAt : datetime;
  event : event_type;
  statusName : string
}.

(* --------------------------------------------------------------------- *)
(* get_status_events                                                      *)
(* --------------------------------------------------------------------- *)

Section Extractor.

(* datetime.strptime(s, "%Y-%m-%dT%H:%M:%SZ").replace(tzinfo=timezone.utc)
   on a str: the instant, or None where strptime raises ValueError. *)
Variable strptime : string -> option datetime.

Definition parse_createdAt (v : json) : result datetime :=
  match v with
  | JStr s =>
      match strptime s with
      | Some t => ret t
      | None => raise ValueError
      end
  | _ => raise TypeError
  end.

(* json_data["payload"]["preloadedQueries"][0]["result"]["data"]
     ["repository"]["issue"]["frontTimelineItems"]["edges"] *)
Definition timeline_edges (json_data : json) : result json :=
  let* payload := getitem json_data "payload" in
  let* queries := getitem payload "preloadedQueries" in
  let* query := getitem0 queries in
  let* res := getitem query "result" in
  let* data := getitem res "data" in
  let* repository := getitem data "repository" in
  let* issue := getitem repository "issue" in
  let* items := getitem issue "frontTimelineItems" in
  getitem items "edges".

(* {"createdAt": strptime(node["createdAt"]), "event": kind, "statusName": name} *)
Definition status_event (node : json) (kind : event_type) (name : string)
  : result StatusEvent :=
  let* created := getitem node "createdAt" in
  let* t := parse_createdAt created in
  ret {| createdAt := t; event := kind; statusName := name |}.

(* the name when v is a str of the list, which is when v in statuses holds *)
Definition status_of_interest (v : json) (statuses : list string)
  : option string :=
  match v with
  | JStr s => if bool_decide (s ∈ statuses) then Some s else None
  | _ => None
  end.

(* the body of the loop over the edges *)
Definition edge_events (statuses : list string)
  (status_events : list StatusEvent) (edge : json)
  : result (list StatusEvent) :=
  let* node := getitem edge "node" in
  let* has_status := contains "status" node in
  if has_status then
    let* status := getitem node "status" in
    let* status_events1 :=
      match status_of_interest status statuses with
      | Some name =>
          let* ev := status_event node Statused name in
          ret (status_events ++ [ev])
      | None => ret status_events
      end in
    let* previous := getitem node "previousStatus" in
    if not_empty_str previous then
      match status_of_interest previous statuses with
      | Some name =>
          let* ev := status_event node Unstatused name in
          ret (status_events1 ++ [ev])
      | None => ret status_events1
      end
    else ret status_events1
  else ret status_events.

Definition get_status_events (issue : Issue) (statuses : list string)
  : result (list StatusEvent) :=
  let* json_data :=
    match html_content issue with
    | NoScriptTag => ret (JObj [])
    | ScriptTag loaded => loaded
    end in
  if truthy json_data then
    let* edges := timeline_edges json_data in
    let* edge_list := iterate edges in
    for_each (edge_events statuses) edge_list []
  else ret [].

End Extractor.

(* --------------------------------------------------------------------- *)
(* get_status_metrics                                                     *)
(* --------------------------------------------------------------------- *)

(* The four dicts the loop over the events updates.  statused and
   unstatused only ever hold True, so they are sets of keys. *)
Record tally : Type := {
  status_metrics : gmap string (option timedelta);
  status_last_event_type : gmap string event_type;
  unstatused : gset string;
  statused : gset string
}.

(* for status in statuses: status_metrics[status] = None *)
Definition initial_metrics (statuses : list string)
  : gmap string (option timedelta) :=
  fold_left (fun m status => <[status := None]> m) statuses ∅.

Definition initial_tally (statuses : list string) : tally :=
  {| status_metrics := initial_metrics statuses;
     status_last_event_type := ∅;
     unstatused := ∅;
     statused := ∅ |}.

(* issue.closed_at is not None and
   event["createdAt"] > fromisoformat(issue.closed_at) + timedelta(minutes=5) *)
Definition past_close (issue : Issue) (ev : StatusEvent) : bool :=
  match closed_at issue with
  | Some closed => bool_decide (closed + minutes 5 < createdAt ev)
  | None => false
  end.

(* if m[name] is None: m[name] = timedelta(0) *)
Definition zero_if_none (m : gmap string (option timedelta)) (name : string)
  : result (gmap string (option timedelta)) :=
  match m !! name with
  | None => raise KeyError
  | Some None => ret (<[name := Some 0]> m)
  | Some (Some _) => ret m
  end.

(* m[name] += delta: the entry is loaded, then the right-hand side is
   evaluated, then the sum is stored; None + timedelta is a TypeError *)
Definition iadd (m : gmap string (option timedelta)) (name : string)
  (delta : result timedelta) : result (gmap string (option timedelta)) :=
  match m !! name with
  | None => raise KeyError
  | Some cur =>
      let* d := delta in
      match cur with
      | None => raise TypeError
      | Some v => ret (<[name := Some (v + d)]> m)
      end
  end.

(* m[name] -= delta *)
Definition isub (m : gmap string (option timedelta)) (name : string)
  (delta : result timedelta) : result (gmap string (option timedelta)) :=
  match m !! name with
  | None => raise KeyError
  | Some cur =>
      let* d := delta in
      match cur with
      | None => raise TypeError
      | Some v => ret (<[name := Some (v - d)]> m)
      end
  end.

(* the body of the loop over the events *)
Definition process_event (issue : Issue) (statuses : list string)
  (st : tally) (ev : StatusEvent) : result tally :=
  if past_close issue ev then ret st
  else
    let name := statusName ev in
    let offset := createdAt ev - created_at issue in
    match event ev with
    | Statused =>
        let statused' := {[name]} ∪ statused st in
        if bool_decide (name ∈ statuses) then
          let* m0 := zero_if_none (status_metrics st) name in
          let* m1 := isub m0 name (ret offset) in
          ret {| status_metrics := m1;
                 status_last_event_type :=
                   <[name := Statused]> (status_last_event_type st);
                 unstatused := unstatused st;
                 statused := statused' |}
        else
          ret {| status_metrics := status_metrics st;
                 status_last_event_type := status_last_event_type st;
                 unstatused := unstatused st;
                 statused := statused' |}
    | Unstatused =>
        let unstatused' := {[name]} ∪ unstatused st in
        if bool_decide (name ∈ statuses) then
          let* m0 := zero_if_none (status_metrics st) name in
          let* m1 := iadd m0 name (ret offset) in
          ret {| status_metrics := m1;
                 status_last_event_type :=
                   <[name := Unstatused]> (status_last_event_type st);
                 unstatused := unstatused';
                 statused := statused st |}
        else
          ret {| status_metrics := status_metrics st;
                 status_last_event_type := status_last_event_type st;
                 unstatused := unstatused';
                 statused := statused st |}
    end.

(* The body of the second loop over the statuses.  now i is what
   datetime.now(pytz.utc) returns in iteration i of that loop. *)
Definition finalize_status (issue : Issue) (now : nat -> datetime)
  (st : tally) (i : nat) (m : gmap string (option timedelta))
  (status : string) : result (gmap string (option timedelta)) :=
  if bool_decide (status ∈ statused st) then
    if String.eqb (state issue) "closed" then
      iadd m status
        match closed_at issue with
        | Some closed => ret (closed - created_at issue)
        | None => raise TypeError
        end
    else
      match status_last_event_type st !! status with
      | None => raise KeyError
      | Some Unstatused => ret m
      | Some Statused => iadd m status (ret (now i - created_at issue))
      end
  else ret m.

(* get_status_metrics from the line after status_events is bound *)
Definition accumulate (issue : Issue) (statuses : list string)
  (now : nat -> datetime) (status_events : list StatusEvent)
  : result (gmap string (option timedelta)) :=
  match status_events with
  | [] => ret (initial_metrics statuses)
  | _ =>
      let* st :=
        for_each (process_event issue statuses) status_events
          (initial_tally statuses) in
      for_each_i (finalize_status issue now st) 0 statuses (status_metrics st)
  end.

Definition get_status_metrics (strptime : string -> option datetime)
  (issue : Issue) (statuses : list string) (now : nat -> datetime)
  : result (gmap string (option timedelta)) :=
  let* status_events := get_status_events strptime issue statuses in
  accumulate issue statuses now status_events.

(* --------------------------------------------------------------------- *)
(* get_stats_time_in_statuses                                             *)
(* --------------------------------------------------------------------- *)

Module Classes.

(** Modelled from the spec: the class IssueWithMetrics of classes.py, which
    is not among the sources: "the container type that simply carries a
    computed per-item status-metric mapping alongside other unrelated
    per-item metrics".  Only the mapping is kept; it is None when it was
    not computed. *)
Record IssueWithMetrics : Type := {
  status_metrics : option (gmap string (option timedelta))
}.

End Classes.

(* timedelta.total_seconds() *)
Definition total_seconds (d : timedelta) : Q := inject_Z d / inject_Z 1000000.

Fixpoint insert_sorted (x : Q) (l : list Q) : list Q :=
  match l with
  | [] => [x]
  | y :: rest => if Qle_bool x y then x :: l else y :: insert_sorted x rest
  end.

Definition sorted (l : list Q) : list Q := fold_right insert_sorted [] l.

Module numpy.

(* numpy.average(a) *)
Definition average (a : list Q) : Q :=
  (fold_right Qplus 0 a / inject_Z (Z.of_nat (length a)))%Q.

(* numpy.median(a): the middle element of the sorted samples, or the mean
   of the two middle ones *)
Definition median (a : list Q) : Q :=
  let s := sorted a in
  let n := length a in
  if Nat.even n
  then ((nth (n / 2 - 1) s 0 + nth (n / 2) s 0) / 2)%Q
  else nth (n / 2) s 0%Q.

(* numpy.percentile(a, q), method "linear": the virtual index
   (n - 1) * q / 100 falls between two ranks of the sorted samples, and
   the result is interpolated between them *)
Definition percentile (a : list Q) (q : Z) : Q :=
  let s := sorted a in
  let n := length a in
  let virtual_index := (inject_Z (Z.of_nat (n - 1)) * (inject_Z q / 100))%Q in
  let previous := Z.to_nat (Qfloor virtual_index) in
  let next := Nat.min (S previous) (n - 1) in
  let gamma := (virtual_index - inject_Z (Qfloor virtual_index))%Q in
  let lo := nth previous s 0%Q in
  let hi := nth next s 0%Q in
  (lo + (hi - lo) * gamma)%Q.

(* numpy.round(x): to the nearest integer, a tie to the even one *)
Definition round (x : Q) : Z :=
  let f := Qfloor x in
  match Qcompare (x - inject_Z f) (1 # 2) with
  | Lt => f
  | Gt => f + 1
  | Eq => if Z.even f then f else f + 1
  end.

End numpy.

(* the body of the loop over issue.status_metrics *)
Definition collect_status (status : string) (value : option timedelta)
  (time_in_statuses : gmap string (list Q)) : gmap string (list Q) :=
  match value with
  | None => time_in_statuses
  | Some d =>
      match time_in_statuses !! status with
      | None => <[status := [total_seconds d]]> time_in_statuses
      | Some samples =>
          <[status := samples ++ [total_seconds d]]> time_in_statuses
      end
  end.

(* the body of the loop over the issues; an empty dict is falsy *)
Definition collect_issue (time_in_statuses : gmap string (list Q))
  (issue : Classes.IssueWithMetrics) : gmap string (list Q) :=
  match Classes.status_metrics issue with
  | None => time_in_statuses
  | Some metrics =>
      if bool_decide (metrics = ∅) then time_in_statuses
      else map_fold collect_status time_in_statuses metrics
  end.

Definition collect_samples (issues_with_metrics : list Classes.IssueWithMetrics)
  : gmap string (list Q) :=
  fold_left collect_issue issues_with_metrics ∅.

(* the three dicts average_time_in_statuses, med_time_in_statuses and
   ninety_percentile_in_statuses *)
Record aggregates : Type := {
  average_time_in_statuses : gmap string (option timedelta);
  med_time_in_statuses : gmap string (option timedelta);
  ninety_percentile_in_statuses : gmap string (option timedelta)
}.

(* the loop over time_in_statuses.items() *)
Definition summarize (time_in_statuses : gmap string (list Q)) : aggregates :=
  {| average_time_in_statuses :=
       (fun time_list => Some (seconds (numpy.round (numpy.average time_list))))
         <$> time_in_statuses;
     med_time_in_statuses :=
       (fun time_list => Some (seconds (numpy.round (numpy.median time_list))))
         <$> time_in_statuses;
     ninety_percentile_in_statuses :=
       (fun time_list =>
          Some (seconds (numpy.round (numpy.percentile time_list 90))))
         <$> time_in_statuses |}.

(* the body of the last loop over the statuses *)
Definition fill_missing (agg : aggregates) (status : string) : aggregates :=
  match average_time_in_statuses agg !! status with
  | Some _ => agg
  | None =>
      {| average_time_in_statuses :=
           <[status := None]> (average_time_in_statuses agg);
         med_time_in_statuses := <[status := None]> (med_time_in_statuses agg);
         ninety_percentile_in_statuses :=
           <[status := None]> (ninety_percentile_in_statuses agg) |}
  end.

Definition get_stats_time_in_statuses
  (issues_with_metrics : list Classes.IssueWithMetrics)
  (statuses : list string) : gmap string (gmap string (option timedelta)) :=
  let time_in_statuses := collect_samples issues_with_metrics in
  let agg := fold_left fill_missing statuses (summarize time_in_statuses) in
  <["90p" := ninety_percentile_in_statuses agg]>
    (<["med" := med_time_in_statuses agg]>
       (<["avg" := average_time_in_statuses agg]> ∅)).

(* --------------------------------------------------------------------- *)
(* An instance of strptime for the examples                               *)
(* --------------------------------------------------------------------- *)

(* The timestamps of the timeline have the form 2024-03-01T12:30:05Z.
   strptime_utc reads exactly that form (ASCII digits, fields of full
   width, a date of the calendar); on it, it is the instant Python's
   strptime gives.  Python also accepts some other spellings (fields of one
   digit, lower-case t and z); nothing below depends on them, and the
   general results hold for every strptime. *)
Module Iso8601.

Definition digit (c : ascii) : option Z :=
  let n := Z.of_nat (nat_of_ascii c) in
  if (48 <=? n) && (n <=? 57) then Some (n - 48) else None.

Fixpoint number (width : nat) (s : string) (acc : Z) : option (Z * string) :=
  match width with
  | O => Some (acc, s)
  | S width' =>
      match s with
      | String c rest =>
          match digit c with
          | Some d => number width' rest (10 * acc + d)
          | None => None
          end
      | EmptyString => None
      end
  end.

Definition literal (c : ascii) (s : string) : option string :=
  match s with
  | String c' rest => if Ascii.eqb c c' then Some rest else None
  | EmptyString => None
  end.

Definition is_leap (y : Z) : bool :=
  ((y mod 4 =? 0) && negb (y mod 100 =? 0)) || (y mod 400 =? 0).

Definition days_in_month (y m : Z) : Z :=
  if m =? 2 then (if is_leap y then 29 else 28)
  else if (m =? 4) || (m =? 6) || (m =? 9) || (m =? 11) then 30
  else 31.

(* days from 1970-01-01 to the date y-m-d of the proleptic Gregorian
   calendar *)
Definition days_from_civil (y m d : Z) : Z :=
  let y' := if m <=? 2 then y - 1 else y in
  let era := y' / 400 in
  let yoe := y' - era * 400 in
  let mp := (m + 9) mod 12 in
  let doy := (153 * mp + 2) / 5 + d - 1 in
  let doe := yoe * 365 + yoe / 4 - yoe / 100 + doy in
  era * 146097 + doe - 719468.

Definition strptime_utc (s : string) : option datetime :=
  '(y, s) ← number 4 s 0;
  s ← literal "-" s;
  '(m, s) ← number 2 s 0;
  s ← literal "-" s;
  '(d, s) ← number 2 s 0;
  s ← literal "T" s;
  '(hh, s) ← number 2 s 0;
  s ← literal ":" s;
  '(mm, s) ← number 2 s 0;
  s ← literal ":" s;
  '(ss, s) ← number 2 s 0;
  s ← literal "Z" s;
  if String.eqb s ""
     && (1 <=? y) && (1 <=? m) && (m <=? 12)
     && (1 <=? d) && (d <=? days_in_month y m)
     && (hh <=? 23) && (mm <=? 59) && (ss <=? 59)
  then Some (seconds (((days_from_civil y m d * 24 + hh) * 60 + mm) * 60 + ss))
  else None.

End Iso8601.

(* --------------------------------------------------------------------- *)
(* Notions for the statements                                             *)
(* --------------------------------------------------------------------- *)

(* the keys of the dict are the statuses *)
Definition keyed (statuses : list string)
  (m : gmap string (option timedelta)) : Prop :=
  forall s, s ∈ statuses <-> is_Some (m !! s).

(* What the tally holds about one status: its accumulator, its last event
   type and whether it is a key of statused. *)
Record track : Type := {
  duration : option timedelta;
  last_event_type : option event_type;
  entered : bool
}.

Definition track_of (st : tally) (s : string) : track :=
  {| duration := default None (status_metrics st !! s);
     last_event_type := status_last_event_type st !! s;
     entered := bool_decide (s ∈ statused st) |}.

Definition untouched : track :=
  {| duration := None; last_event_type := None; entered := false |}.

(* what an event does to the track of status s *)
Definition step_track (issue : Issue) (s : string) (tr : track)
  (ev : StatusEvent) : track :=
  if past_close issue ev then tr
  else if bool_decide (statusName ev = s) then
    match event ev with
    | Statused =>
        {| duration :=
             Some (default 0 (duration tr) - (createdAt ev - created_at issue));
           last_event_type := Some Statused;
           entered := true |}
    | Unstatused =>
        {| duration :=
             Some (default 0 (duration tr) + (createdAt ev - created_at issue));
           last_event_type := Some Unstatused;
           entered := entered tr |}
    end
  else tr.

Definition tally_ok (statuses : list string) (st : tally) : Prop :=
  keyed statuses (status_metrics st)
  /\ forall s, is_Some (status_last_event_type st !! s) -> s ∈ statuses.

(* a status that is a key of statused has a duration and a last event
   type; a status with a last event type has a duration; a status whose
   last event type is "statused" is a key of statused *)
Definition track_ok (tr : track) : Prop :=
  (entered tr = true -> is_Some (duration tr) /\ is_Some (last_event_type tr))
  /\ (is_Some (last_event_type tr) -> is_Some (duration tr))
  /\ (last_event_type tr = Some Statused -> entered tr = true).

(* what an iteration of the second loop does to the entry of its status,
   the clock reading t *)
Definition finalize_entry (issue : Issue) (t : datetime) (tr : track)
  (v : option timedelta) : result (option timedelta) :=
  if entered tr then
    if String.eqb (state issue) "closed" then
      match closed_at issue with
      | None => raise TypeError
      | Some closed =>
          match v with
          | None => raise TypeError
          | Some x => ret (Some (x + (closed - created_at issue)))
          end
      end
    else
      match last_event_type tr with
      | None => raise KeyError
      | Some Unstatused => ret v
      | Some Statused =>
          match v with
          | None => raise TypeError
          | Some x => ret (Some (x + (t - created_at issue)))
          end
      end
  else ret v.

(* the second dict has the keys of the first, None where the first has
   None, and durations that are not smaller *)
Definition metrics_le (m1 m2 : gmap string (option timedelta)) : Prop :=
  forall s,
    match m1 !! s, m2 !! s with
    | Some (Some a), Some (Some b) => a <= b
    | Some None, Some None => True
    | None, None => True
    | _, _ => False
    end.

(* the durations of a status over the issues, in their order *)
Definition durations_of (s : string)
  (issues_with_metrics : list Classes.IssueWithMetrics) : list timedelta :=
  flat_map
    (fun issue =>
       match Classes.status_metrics issue with
       | Some metrics =>
           match metrics !! s with
           | Some (Some d) => [d]
           | _ => []
           end
       | None => []
       end)
    issues_with_metrics.

(* the samples of a status after more durations are collected *)
Definition extended (old : option (list Q)) (ds : list timedelta)
  : option (list Q) :=
  match old, ds with
  | None, [] => None
  | _, _ => Some (default [] old ++ map total_seconds ds)
  end.

(* the three dicts have the same keys *)
Definition aligned (agg : aggregates) : Prop :=
  forall s,
    (average_time_in_statuses agg !! s = None
     <-> med_time_in_statuses agg !! s = None)
    /\ (average_time_in_statuses agg !! s = None
        <-> ninety_percentile_in_statuses agg !! s = None).

(* the event is about status s and the loop does not skip it *)
Definition processed_for (issue : Issue) (s : string) (ev : StatusEvent)
  : bool :=
  bool_decide (statusName ev = s) && negb (past_close issue ev).

(* the offsets from created_at of the processed events of status s *)
Definition offsets_of (issue : Issue) (s : string) (evs : list StatusEvent)
  : list timedelta :=
  map (fun ev => createdAt ev - created_at issue)
    (List.filter (processed_for issue s) evs).

Definition total (ds : list timedelta) : timedelta := fold_right Z.add 0 ds.

(* --------------------------------------------------------------------- *)
(* Items for the examples                                                 *)
(* --------------------------------------------------------------------- *)

(* an edge of the timeline: the status changed from previous to status *)
Definition status_change (created status previous : string) : json :=
  JObj [("node",
         JObj [("createdAt", JStr created);
               ("status", JStr status);
               ("previousStatus", JStr previous)])].

(* the embedded data that holds the edges *)
Definition embedded_data (edges : list json) : json :=
  JObj [("payload",
    JObj [("preloadedQueries",
      JArr [JObj [("result",
        JObj [("data",
          JObj [("repository",
            JObj [("issue",
              JObj [("frontTimelineItems",
                JObj [("edges", JArr edges)])])])])])]])])].

(* an issue created on 2024-03-01 at 12:00:00 UTC *)
Definition created_example : datetime := 1709294400000000.

(* an issue whose page embeds a timeline with the given edges *)
Definition example_issue (closed : option datetime) (st : string)
  (edges : list json) : Issue :=
  {| created_at := created_example;
     closed_at := closed;
     state := st;
     html_content := ScriptTag (inr (embedded_data edges)) |}.

(* an open issue with a given page *)
Definition page_issue (p : page) : Issue :=
  {| created_at := created_example;
     closed_at := None;
     state := "open";
     html_content := p |}.

(* an item whose only duration is d, for status s *)
Definition item_with (s : string) (d : timedelta) : Classes.IssueWithMetrics :=
  {| Classes.status_metrics := Some (<[s := Some d]> ∅) |}.

(* three items that spent 10, 20 and 30 seconds in "In Progress" *)
Definition three_items : list Classes.IssueWithMetrics :=
  [ item_with "In Progress" (seconds 10);
    item_with "In Progress" (seconds 20);
    item_with "In Progress" (seconds 30) ].

(* --------------------------------------------------------------------- *)
(* The events of one status, in the order of the loop                     *)
(* --------------------------------------------------------------------- *)

(* the processed events of status s *)
Definition events_for (issue : Issue) (s : string) (evs : list StatusEvent)
  : list StatusEvent :=
  List.filter (processed_for issue s) evs.

(* what an event adds to the duration of its status: the loop subtracts
   the offset of an ENTERED event and adds the offset of a LEFT event *)
Definition signed_offset (issue : Issue) (ev : StatusEvent) : timedelta :=
  match event ev with
  | Statused => - (createdAt ev - created_at issue)
  | Unstatused => createdAt ev - created_at issue
  end.

Definition net_offset (issue : Issue) (evs : list StatusEvent) : timedelta :=
  total (map (signed_offset issue) evs).

Definition is_entered (ev : StatusEvent) : bool :=
  bool_decide (event ev = Statused).

(* the number of times status s is in the list of the statuses *)
Definition occurrences (s : string) (statuses : list string) : Z :=
  Z.of_nat (length (List.filter (String.eqb s) statuses)).

(* the events of the closed intervals [a, b] of status s, in order *)
Definition interval_events (s : string)
  (intervals : list (datetime * datetime)) : list StatusEvent :=
  flat_map
    (fun ab =>
       [ {| createdAt := fst ab; event := Statused; statusName := s |};
         {| createdAt := snd ab; event := Unstatused; statusName := s |} ])
    intervals.

(* the total length of the intervals *)
Definition total_length (intervals : list (datetime * datetime)) : timedelta :=
  total (map (fun ab => snd ab - fst ab) intervals).

(* --------------------------------------------------------------------- *)
(* Well-formed timelines                                                  *)
(* --------------------------------------------------------------------- *)

(* a change of status as the timeline records it: the string of its
   createdAt, the instant that string denotes, the new status and the
   previous one (the empty string when there is none) *)
Record Change : Type := {
  change_created : string;
  change_time : datetime;
  change_status : string;
  change_previous : string
}.

Definition edge_of (ch : Change) : json :=
  status_change (change_created ch) (change_status ch) (change_previous ch).

(* the change is about a status of the list *)
Definition of_interest (statuses : list string) (ch : Change) : bool :=
  bool_decide (change_status ch ∈ statuses)
  || (negb (String.eqb (change_previous ch) "")
      && bool_decide (change_previous ch ∈ statuses)).

(* the events of a change: the ENTERED event of the new status, then the
   LEFT event of the previous one, each when the status is in the list *)
Definition events_of_change (statuses : list string) (ch : Change)
  : list StatusEvent :=
  (if bool_decide (change_status ch ∈ statuses)
   then [ {| createdAt := change_time ch; event := Statused;
             statusName := change_status ch |} ]
   else [])
  ++ (if negb (String.eqb (change_previous ch) "")
         && bool_decide (change_previous ch ∈ statuses)
      then [ {| createdAt := change_time ch; event := Unstatused;
                statusName := change_previous ch |} ]
      else []).

(* an issue with the dates and the state of another and its own page *)
Definition with_page (issue : Issue) (p : page) : Issue :=
  {| created_at := created_at issue;
     closed_at := closed_at issue;
     state := state issue;
     html_content := p |}.

(* ===================================================================== *)
(* Properties                                                             *)
(* ===================================================================== *)

(* --------------------------------------------------------------------- *)
(* Loops                                                                  *)
(* --------------------------------------------------------------------- *)

Lemma for_each_app {A St} (body : St -> A -> result St) (xs ys : list A)
  (acc : St) :
  for_each body (xs ++ ys) acc
  = (let* acc' := for_each body xs acc in for_each body ys acc').
Proof.
  revert acc. induction xs as [|x xs IH]; intros acc; simpl; [done|].
  destruct (body acc x); simpl; [done|]. apply IH.
Qed.

Lemma for_each_i_ext {A St} (f g : nat -> St -> A -> result St)
  (xs : list A) :
  (forall i acc x, f i acc x = g i acc x) ->
  forall i acc, for_each_i f i xs acc = for_each_i g i xs acc.
Proof.
  intros Hfg. induction xs as [|x xs IH]; intros i acc; simpl; [done|].
  rewrite Hfg. destruct (g i acc x); simpl; [done|]. apply IH.
Qed.

(* --------------------------------------------------------------------- *)
(* The dict of the durations                                              *)
(* --------------------------------------------------------------------- *)

Lemma fold_insert_none_lookup (statuses : list string)
  (m : gmap string (option timedelta)) (s : string) :
  fold_left (fun m status => <[status := None]> m) statuses m !! s
  = if bool_decide (s ∈ statuses) then Some None else m !! s.
Proof.
  revert m. induction statuses as [|x l IH]; intros m; cbn [fold_left].
  - case_bool_decide as H; [|done]. by apply elem_of_nil in H.
  - rewrite IH. destruct (decide (s ∈ l)) as [Hl|Hl].
    + rewrite (bool_decide_eq_true_2 _ Hl).
      rewrite bool_decide_eq_true_2; [done|]. apply elem_of_cons; by right.
    + rewrite (bool_decide_eq_false_2 _ Hl).
      destruct (decide (x = s)) as [->|Hne].
      * rewrite lookup_insert_eq.
        rewrite bool_decide_eq_true_2; [done|]. apply elem_of_cons; by left.
      * rewrite lookup_insert_ne by done.
        rewrite bool_decide_eq_false_2; [done|].
        intros [?|?]%elem_of_cons; congruence.
Qed.

Lemma initial_metrics_lookup (statuses : list string) (s : string) :
  initial_metrics statuses !! s
  = if bool_decide (s ∈ statuses) then Some None else None.
Proof. unfold initial_metrics. rewrite fold_insert_none_lookup. by rewrite lookup_empty. Qed.

Lemma initial_metrics_keyed (statuses : list string) :
  keyed statuses (initial_metrics statuses).
Proof.
  intros s. rewrite initial_metrics_lookup. case_bool_decide; split; try done.
Qed.

Lemma keyed_insert (statuses : list string) m (s : string) v :
  s ∈ statuses -> keyed statuses m -> keyed statuses (<[s := v]> m).
Proof.
  intros Hs Hk s'. destruct (decide (s = s')) as [<-|Hne].
  - rewrite lookup_insert_eq. split; [eauto|done].
  - rewrite lookup_insert_ne by done. apply Hk.
Qed.

(* the two updates of an event, on an entry that exists *)
Lemma zero_then_isub {B} m (name : string) (cur : option timedelta)
  (d : timedelta) (k : gmap string (option timedelta) -> result B) :
  m !! name = Some cur ->
  (let* m0 := zero_if_none m name in
   let* m1 := isub m0 name (ret d) in k m1)
  = k (<[name := Some (default 0 cur - d)]> m).
Proof.
  intros Hm. unfold zero_if_none, isub, bind, ret. rewrite Hm.
  destruct cur as [v|].
  - by rewrite Hm.
  - rewrite lookup_insert_eq. cbn [default]. by rewrite insert_insert_eq.
Qed.

Lemma zero_then_iadd {B} m (name : string) (cur : option timedelta)
  (d : timedelta) (k : gmap string (option timedelta) -> result B) :
  m !! name = Some cur ->
  (let* m0 := zero_if_none m name in
   let* m1 := iadd m0 name (ret d) in k m1)
  = k (<[name := Some (default 0 cur + d)]> m).
Proof.
  intros Hm. unfold zero_if_none, iadd, bind, ret. rewrite Hm.
  destruct cur as [v|].
  - by rewrite Hm.
  - rewrite lookup_insert_eq. cbn [default]. by rewrite insert_insert_eq.
Qed.

(* --------------------------------------------------------------------- *)
(* One status at a time                                                   *)
(* --------------------------------------------------------------------- *)

Lemma initial_tally_ok (statuses : list string) :
  tally_ok statuses (initial_tally statuses).
Proof.
  split; [apply initial_metrics_keyed|].
  intros s [x Hx]. simpl in Hx. by rewrite lookup_empty in Hx.
Qed.

Lemma initial_track (statuses : list string) (s : string) :
  track_of (initial_tally statuses) s = untouched.
Proof.
  unfold track_of, untouched. simpl. rewrite initial_metrics_lookup.
  f_equal. by case_bool_decide.
Qed.

Lemma track_of_other (st st' : tally) (name s : string) v :
  name <> s ->
  status_metrics st' = <[name := v]> (status_metrics st) ->
  (exists k, status_last_event_type st'
             = <[name := k]> (status_last_event_type st)) ->
  (statused st' = statused st \/ statused st' = {[name]} ∪ statused st) ->
  track_of st' s = track_of st s.
Proof.
  intros Hne Hm [k Hl] Hs. unfold track_of. rewrite Hm, Hl.
  rewrite !lookup_insert_ne by done. f_equal.
  apply bool_decide_ext. destruct Hs as [->| ->]; [done|].
  rewrite elem_of_union, elem_of_singleton. naive_solver.
Qed.

(* an event of the loop acts on each status as step_track says *)
Lemma process_event_track (issue : Issue) (statuses : list string)
  (st : tally) (ev : StatusEvent) :
  tally_ok statuses st ->
  exists st',
    process_event issue statuses st ev = inr st'
    /\ tally_ok statuses st'
    /\ forall s, s ∈ statuses ->
         track_of st' s = step_track issue s (track_of st s) ev.
Proof.
  intros [Hk Hl]. unfold process_event, step_track.
  destruct (past_close issue ev); [by exists st|].
  destruct ev as [t kind name]; cbn [statusName createdAt event].
  destruct kind; case_bool_decide as Hin.
  - destruct (proj1 (Hk name) Hin) as [cur Hcur].
    rewrite (zero_then_isub _ _ _ _ _ Hcur). eexists; split; [done|].
    split.
    + split; simpl; [by apply keyed_insert|].
      intros s. destruct (decide (name = s)) as [<-|?]; [done|].
      rewrite lookup_insert_ne by done. apply Hl.
    + intros s Hs. case_bool_decide as Hs'.
      * subst s. unfold track_of; simpl. rewrite !lookup_insert_eq, Hcur. simpl.
        f_equal. apply bool_decide_eq_true_2. set_solver.
      * eapply track_of_other; simpl; eauto.
  - eexists; split; [done|]. split; [done|].
    intros s Hs. rewrite bool_decide_eq_false_2 by congruence.
    unfold track_of; simpl. f_equal. apply bool_decide_ext. set_solver.
  - destruct (proj1 (Hk name) Hin) as [cur Hcur].
    rewrite (zero_then_iadd _ _ _ _ _ Hcur). eexists; split; [done|].
    split.
    + split; simpl; [by apply keyed_insert|].
      intros s. destruct (decide (name = s)) as [<-|?]; [done|].
      rewrite lookup_insert_ne by done. apply Hl.
    + intros s Hs. case_bool_decide as Hs'.
      * subst s. unfold track_of; simpl. rewrite !lookup_insert_eq, Hcur. done.
      * eapply track_of_other; simpl; eauto.
  - eexists; split; [done|]. split; [done|].
    intros s Hs. rewrite bool_decide_eq_false_2 by congruence. done.
Qed.

Lemma process_events_track (issue : Issue) (statuses : list string)
  (evs : list StatusEvent) (st : tally) :
  tally_ok statuses st ->
  exists st',
    for_each (process_event issue statuses) evs st = inr st'
    /\ tally_ok statuses st'
    /\ forall s, s ∈ statuses ->
         track_of st' s = fold_left (step_track issue s) evs (track_of st s).
Proof.
  revert st. induction evs as [|ev evs IH]; intros st Hok; simpl.
  - by exists st.
  - destruct (process_event_track issue statuses st ev Hok)
      as (st1 & -> & Hok1 & Htr1). simpl.
    destruct (IH st1 Hok1) as (st' & -> & Hok' & Htr').
    exists st'. split; [done|]. split; [done|].
    intros s Hs. rewrite Htr', Htr1; done.
Qed.

Lemma untouched_ok : track_ok untouched.
Proof.
  unfold track_ok, untouched; simpl. repeat split; try done.
  all: by intros [? ?].
Qed.

Lemma step_track_ok (issue : Issue) (s : string) (tr : track)
  (ev : StatusEvent) :
  track_ok tr -> track_ok (step_track issue s tr ev).
Proof.
  intros (H1 & H2 & H3). unfold step_track.
  destruct (past_close issue ev); [done|].
  case_bool_decide; [|done].
  destruct (event ev); unfold track_ok; simpl; repeat split; eauto;
    try done; intros He; by destruct (H1 He).
Qed.

Lemma fold_step_track_ok (issue : Issue) (s : string)
  (evs : list StatusEvent) (tr : track) :
  track_ok tr -> track_ok (fold_left (step_track issue s) evs tr).
Proof.
  revert tr. induction evs as [|ev evs IH]; intros tr Hok; simpl; [done|].
  apply IH. by apply step_track_ok.
Qed.

(* --------------------------------------------------------------------- *)
(* The second loop over the statuses                                      *)
(* --------------------------------------------------------------------- *)

Lemma finalize_status_entry (issue : Issue) (now : nat -> datetime)
  (st : tally) (i : nat) m (status : string) (v : option timedelta) :
  m !! status = Some v ->
  finalize_status issue now st i m status
  = (let* v' := finalize_entry issue (now i) (track_of st status) v in
     ret (<[status := v']> m)).
Proof.
  intros Hm. unfold finalize_status, finalize_entry, track_of, iadd; simpl.
  rewrite Hm. case_bool_decide; simpl; [|by rewrite insert_id].
  destruct (String.eqb (state issue) "closed").
  - destruct (closed_at issue); simpl; [|done]. by destruct v.
  - destruct (status_last_event_type st !! status) as [[]|]; simpl; try done.
    + by destruct v.
    + by rewrite insert_id.
Qed.

(* the loop keeps the keys of the dict *)
Lemma finalize_keys (issue : Issue) (now : nat -> datetime) (st : tally)
  (l : list string) :
  forall i m m',
    for_each_i (finalize_status issue now st) i l m = inr m' ->
    forall s, is_Some (m' !! s) <-> is_Some (m !! s).
Proof.
  induction l as [|x l IH]; intros i m m' Hrun s; simpl in Hrun.
  - by inversion Hrun.
  - destruct (finalize_status issue now st i m x) as [e|m1] eqn:Hx;
      simpl in Hrun; [done|].
    rewrite (IH _ _ _ Hrun s). clear Hrun IH.
    unfold finalize_status in Hx.
    assert (Hadd : forall d, iadd m x d = inr m1 ->
                   is_Some (m1 !! s) <-> is_Some (m !! s)).
    { intros d Hd. unfold iadd in Hd.
      destruct (m !! x) as [cur|] eqn:Hmx; [|done].
      destruct d as [e|d]; simpl in Hd; [done|].
      destruct cur as [v|]; [|done]. inversion Hd; subst m1.
      destruct (decide (x = s)) as [<-|?].
      - rewrite lookup_insert_eq, Hmx. split; eauto.
      - by rewrite lookup_insert_ne. }
    case_bool_decide; [|by inversion Hx].
    destruct (String.eqb (state issue) "closed"); [by eapply Hadd|].
    destruct (status_last_event_type st !! x) as [[]|]; [by eapply Hadd| |done].
    by inversion Hx.
Qed.

(* an entry the loop never changes: its status is not among those of the
   loop, or the iteration for it is the identity *)
Lemma finalize_unchanged (issue : Issue) (now : nat -> datetime) (st : tally)
  (s : string) (l : list string) :
  (s ∉ l \/ forall t v, finalize_entry issue t (track_of st s) v = ret v) ->
  forall i m m',
    for_each_i (finalize_status issue now st) i l m = inr m' ->
    m' !! s = m !! s.
Proof.
  intros Hs. induction l as [|x l IH]; intros i m m' Hrun; simpl in Hrun.
  - by inversion Hrun.
  - destruct (finalize_status issue now st i m x) as [e|m1] eqn:Hx;
      simpl in Hrun; [done|].
    rewrite (IH ltac:(destruct Hs as [Hs|Hs]; [left; set_solver|by right])
               _ _ _ Hrun).
    clear Hrun IH.
    destruct (m !! x) as [v|] eqn:Hmx.
    + rewrite (finalize_status_entry _ _ _ _ _ _ _ Hmx) in Hx.
      destruct (decide (x = s)) as [->|Hne].
      * destruct Hs as [Hs|Hs]; [set_solver|].
        rewrite Hs in Hx. simpl in Hx. inversion Hx.
        by rewrite lookup_insert_eq.
      * destruct (finalize_entry issue (now i) (track_of st x) v);
          simpl in Hx; [done|]. inversion Hx. by rewrite lookup_insert_ne.
    + unfold finalize_status, iadd in Hx. rewrite Hmx in Hx.
      case_bool_decide; [|by inversion Hx].
      destruct (String.eqb (state issue) "closed"); [done|].
      destruct (status_last_event_type st !! x) as [[]|]; [done| |done].
      by inversion Hx.
Qed.

(* the entry of a status that the loop visits once *)
Lemma finalize_at (issue : Issue) (now : nat -> datetime) (st : tally)
  (s : string) (l : list string) :
  NoDup l ->
  forall j i m m' v,
    l !! j = Some s ->
    for_each_i (finalize_status issue now st) i l m = inr m' ->
    m !! s = Some v ->
    exists v',
      finalize_entry issue (now (i + j)%nat) (track_of st s) v = inr v'
      /\ m' !! s = Some v'.
Proof.
  induction l as [|x l IH]; intros Hnd j i m m' v Hj Hrun Hm; [done|].
  apply NoDup_cons in Hnd as [Hx Hnd]. simpl in Hrun.
  destruct (finalize_status issue now st i m x) as [e|m1] eqn:Hfx;
    simpl in Hrun; [done|].
  destruct j as [|j]; simpl in Hj.
  - inversion Hj; subst x. rewrite Nat.add_0_r.
    rewrite (finalize_status_entry _ _ _ _ _ _ _ Hm) in Hfx.
    destruct (finalize_entry issue (now i) (track_of st s) v) as [e|v'];
      simpl in Hfx; [done|].
    exists v'. split; [done|]. inversion Hfx; subst m1.
    rewrite (finalize_unchanged issue now st s l (or_introl Hx) _ _ _ Hrun).
    apply lookup_insert_eq.
  - assert (x <> s) as Hne.
    { intros ->. apply Hx. apply list_elem_of_lookup. eauto. }
    replace (i + S j)%nat with (S i + j)%nat by lia.
    apply (IH Hnd j (S i) m1 m' v Hj Hrun).
    rewrite <- Hm.
    assert (s ∉ [x]) as Hsx.
    { rewrite elem_of_cons, elem_of_nil. naive_solver. }
    apply (finalize_unchanged issue now st s [x] (or_introl Hsx) i m m1).
    simpl. by rewrite Hfx.
Qed.

(* the loop raises nothing on the tally the first loop leaves *)
Lemma finalize_total (issue : Issue) (now : nat -> datetime) (st : tally)
  (l : list string) :
  (String.eqb (state issue) "closed" = true -> is_Some (closed_at issue)) ->
  (forall s, s ∈ l -> track_ok (track_of st s)) ->
  forall i m,
    (forall s, s ∈ l -> is_Some (m !! s)) ->
    (forall s, s ∈ l -> entered (track_of st s) = true ->
               exists x, m !! s = Some (Some x)) ->
    exists m', for_each_i (finalize_status issue now st) i l m = inr m'.
Proof.
  intros Hclosed. induction l as [|x l IH]; intros Hok i m Hkeys Hent; simpl.
  - by exists m.
  - destruct (Hkeys x ltac:(set_solver)) as [v Hv].
    rewrite (finalize_status_entry _ _ _ _ _ _ _ Hv).
    assert (exists v',
      finalize_entry issue (now i) (track_of st x) v = inr v'
      /\ (entered (track_of st x) = true -> is_Some v')) as (v' & -> & Hv').
    { unfold finalize_entry.
      destruct (entered (track_of st x)) eqn:He; [|by exists v].
      destruct (Hent x ltac:(set_solver) He) as [d Hd].
      rewrite Hd in Hv. inversion Hv; subst v.
      destruct (Hok x ltac:(set_solver)) as (H1 & _ & _).
      destruct (H1 He) as [_ [k Hk]].
      destruct (String.eqb (state issue) "closed").
      - destruct (Hclosed eq_refl) as [c ->]. eexists; split; eauto.
      - rewrite Hk. destruct k; eexists; split; eauto. }
    simpl. apply IH.
    + intros s Hs. apply Hok. set_solver.
    + intros s Hs. destruct (decide (x = s)) as [<-|?].
      * rewrite lookup_insert_eq. eauto.
      * rewrite lookup_insert_ne by done. apply Hkeys. set_solver.
    + intros s Hs He. destruct (decide (x = s)) as [<-|?].
      * rewrite lookup_insert_eq. destruct (Hv' He) as [d ->]. eauto.
      * rewrite lookup_insert_ne by done. apply Hent; [set_solver|done].
Qed.

(* with no key in statused, the loop is the identity *)
Lemma finalize_nothing_entered (issue : Issue) (now : nat -> datetime)
  (st : tally) (l : list string) :
  statused st = ∅ ->
  forall i m, for_each_i (finalize_status issue now st) i l m = inr m.
Proof.
  intros Hst. induction l as [|x l IH]; intros i m; simpl; [done|].
  unfold finalize_status at 1. rewrite Hst.
  rewrite bool_decide_eq_false_2 by set_solver. simpl. apply IH.
Qed.

(* --------------------------------------------------------------------- *)
(* accumulate                                                             *)
(* --------------------------------------------------------------------- *)

(* The first loop raises nothing; each status of the list is tracked by
   step_track; and the early return for no event is what the two loops
   would return. *)
Lemma accumulate_run (issue : Issue) (statuses : list string)
  (now : nat -> datetime) (evs : list StatusEvent) :
  exists st,
    for_each (process_event issue statuses) evs (initial_tally statuses)
    = inr st
    /\ tally_ok statuses st
    /\ (forall s, s ∈ statuses ->
          track_of st s = fold_left (step_track issue s) evs untouched)
    /\ accumulate issue statuses now evs
       = for_each_i (finalize_status issue now st) 0 statuses
           (status_metrics st).
Proof.
  destruct (process_events_track issue statuses evs (initial_tally statuses)
              (initial_tally_ok statuses)) as (st & Hrun & Hok & Htr).
  exists st. split; [done|]. split; [done|]. split.
  - intros s Hs. rewrite (Htr s Hs). by rewrite initial_track.
  - unfold accumulate. destruct evs as [|ev evs].
    + simpl in Hrun. inversion Hrun; subst st.
      by rewrite finalize_nothing_entered.
    + by rewrite Hrun.
Qed.

(* the keys of the result are the statuses *)
Lemma accumulate_keyed (issue : Issue) (statuses : list string)
  (now : nat -> datetime) (evs : list StatusEvent) m :
  accumulate issue statuses now evs = inr m -> keyed statuses m.
Proof.
  destruct (accumulate_run issue statuses now evs)
    as (st & _ & [Hk _] & _ & ->).
  intros Hrun s. rewrite (finalize_keys _ _ _ _ _ _ _ Hrun s). apply Hk.
Qed.

(* accumulate returns when a closed issue has its closed_at *)
Lemma accumulate_total (issue : Issue) (statuses : list string)
  (now : nat -> datetime) (evs : list StatusEvent) :
  (String.eqb (state issue) "closed" = true -> is_Some (closed_at issue)) ->
  exists m, accumulate issue statuses now evs = inr m.
Proof.
  intros Hclosed.
  destruct (accumulate_run issue statuses now evs)
    as (st & _ & [Hk _] & Htr & ->).
  assert (forall s, s ∈ statuses -> track_ok (track_of st s)) as Hok.
  { intros s Hs. rewrite (Htr s Hs). apply fold_step_track_ok, untouched_ok. }
  apply finalize_total; try done.
  - intros s Hs. by apply Hk.
  - intros s Hs He. destruct (Hok s Hs) as (H1 & _ & _).
    destruct (H1 He) as [[d Hd] _]. unfold track_of in Hd; simpl in Hd.
    destruct (proj1 (Hk s) Hs) as [v Hv]. rewrite Hv in Hd |- *.
    simpl in Hd. subst v. eauto.
Qed.

(* the entry of a status, when the list of the statuses has no
   duplicate *)
Lemma accumulate_at (issue : Issue) (statuses : list string)
  (now : nat -> datetime) (evs : list StatusEvent) m (j : nat) (s : string) :
  NoDup statuses ->
  statuses !! j = Some s ->
  accumulate issue statuses now evs = inr m ->
  let tr := fold_left (step_track issue s) evs untouched in
  exists v, finalize_entry issue (now j) tr (duration tr) = inr v
            /\ m !! s = Some v.
Proof.
  intros Hnd Hj. assert (s ∈ statuses) as Hs.
  { apply list_elem_of_lookup. eauto. }
  destruct (accumulate_run issue statuses now evs)
    as (st & _ & [Hk _] & Htr & ->).
  intros Hrun. simpl. rewrite <- (Htr s Hs).
  destruct (proj1 (Hk s) Hs) as [v Hv].
  replace (duration (track_of st s)) with v
    by (unfold track_of; simpl; by rewrite Hv).
  apply (finalize_at issue now st s statuses Hnd j 0%nat _ _ v Hj Hrun Hv).
Qed.

(* the entry of a status whose iterations of the second loop are the
   identity *)
Lemma accumulate_unchanged (issue : Issue) (statuses : list string)
  (now : nat -> datetime) (evs : list StatusEvent) m (s : string) :
  s ∈ statuses ->
  accumulate issue statuses now evs = inr m ->
  let tr := fold_left (step_track issue s) evs untouched in
  (forall t v, finalize_entry issue t tr v = ret v) ->
  m !! s = Some (duration tr).
Proof.
  intros Hs.
  destruct (accumulate_run issue statuses now evs)
    as (st & _ & [Hk _] & Htr & ->).
  intros Hrun tr Hid. subst tr. rewrite <- (Htr s Hs) in Hid |- *.
  rewrite (finalize_unchanged issue now st s statuses (or_intror Hid)
             _ _ _ Hrun).
  destruct (proj1 (Hk s) Hs) as [v Hv]. rewrite Hv.
  unfold track_of; simpl. by rewrite Hv.
Qed.

(* --------------------------------------------------------------------- *)
(* get_status_events                                                      *)
(* --------------------------------------------------------------------- *)

Lemma status_of_interest_elem (v : json) (statuses : list string)
  (name : string) :
  status_of_interest v statuses = Some name -> name ∈ statuses.
Proof.
  destruct v; simpl; try done. case_bool_decide; [|done].
  by intros [= <-].
Qed.

Lemma status_event_name strptime (node : json) (kind : event_type)
  (name : string) (ev : StatusEvent) :
  status_event strptime node kind name = inr ev -> statusName ev = name.
Proof.
  unfold status_event.
  destruct (getitem node "createdAt") as [e|c]; simpl; [done|].
  destruct (parse_createdAt strptime c) as [e|t]; simpl; [done|].
  by intros [= <-].
Qed.

Lemma edge_events_of_interest strptime (statuses : list string)
  (acc : list StatusEvent) (edge : json) (evs : list StatusEvent) :
  Forall (fun ev => statusName ev ∈ statuses) acc ->
  edge_events strptime statuses acc edge = inr evs ->
  Forall (fun ev => statusName ev ∈ statuses) evs.
Proof.
  intros Hacc. unfold edge_events.
  destruct (getitem edge "node") as [e|node]; simpl; [done|].
  destruct (contains "status" node) as [e|[]]; simpl; [done| |by intros [= <-]].
  destruct (getitem node "status") as [e|status]; simpl; [done|].
  assert (forall kind v acc1 evs1,
    Forall (fun ev => statusName ev ∈ statuses) acc1 ->
    match status_of_interest v statuses with
    | Some name =>
        let* ev := status_event strptime node kind name in ret (acc1 ++ [ev])
    | None => ret acc1
    end = inr evs1 ->
    Forall (fun ev => statusName ev ∈ statuses) evs1) as Hstep.
  { intros kind v acc1 evs1 Hacc1.
    destruct (status_of_interest v statuses) as [name|] eqn:Hv;
      [|by intros [= <-]].
    destruct (status_event strptime node kind name) as [e|ev] eqn:Hev;
      simpl; [done|].
    intros [= <-]. apply Forall_app; split; [done|].
    apply Forall_singleton. rewrite (status_event_name _ _ _ _ _ Hev).
    by eapply status_of_interest_elem. }
  match goal with
  | |- (let* x := ?c in _) = _ -> _ => destruct c as [e|acc1] eqn:H1
  end; simpl; [done|].
  apply (Hstep Statused) in H1; [|done].
  destruct (getitem node "previousStatus") as [e|previous]; simpl; [done|].
  destruct (not_empty_str previous); [|by intros [= <-]].
  by apply (Hstep Unstatused).
Qed.

(* every event is about a status of the list *)
Lemma get_status_events_of_interest strptime (issue : Issue)
  (statuses : list string) (evs : list StatusEvent) :
  get_status_events strptime issue statuses = inr evs ->
  Forall (fun ev => statusName ev ∈ statuses) evs.
Proof.
  unfold get_status_events.
  match goal with
  | |- (let* x := ?c in _) = _ -> _ => destruct c as [e|json_data]
  end; simpl; [done|].
  destruct (truthy json_data); [|by intros [= <-]].
  destruct (timeline_edges json_data) as [e|edges]; simpl; [done|].
  destruct (iterate edges) as [e|edge_list]; simpl; [done|].
  assert (Forall (fun ev => statusName ev ∈ statuses) []) as Hnil by done.
  revert Hnil. generalize (@nil StatusEvent) as acc.
  induction edge_list as [|edge rest IH]; intros acc Hacc; simpl.
  - by intros [= <-].
  - destruct (edge_events strptime statuses acc edge) as [e|acc1] eqn:Hedge;
      simpl; [done|].
    apply IH. by eapply edge_events_of_interest.
Qed.

(* --------------------------------------------------------------------- *)
(* The accumulator on given events                                        *)
(* --------------------------------------------------------------------- *)

Example created_example_parsed :
  Iso8601.strptime_utc "2024-03-01T12:00:00Z" = Some created_example.
Proof. reflexivity. Qed.

(* a change of status gives the ENTERED event of the new status, then the
   LEFT event of the previous one, at the same instant *)
Example events_of_a_timeline :
  get_status_events Iso8601.strptime_utc
    (example_issue None "open"
       [status_change "2024-03-01T12:00:10Z" "In Progress" "";
        status_change "2024-03-01T12:01:10Z" "Done" "In Progress";
        status_change "2024-03-01T12:02:00Z" "Archived" "Done"])
    ["In Progress"; "Done"]
  = inr [ {| createdAt := created_example + seconds 10; event := Statused;
             statusName := "In Progress" |};
          {| createdAt := created_example + seconds 70; event := Statused;
             statusName := "Done" |};
          {| createdAt := created_example + seconds 70; event := Unstatused;
             statusName := "In Progress" |};
          {| createdAt := created_example + seconds 120; event := Unstatused;
             statusName := "Done" |} ].
Proof. vm_compute. reflexivity. Qed.

Ltac solve_NoDup :=
  match goal with
  | |- NoDup ?l => apply (bool_decide_unpack (NoDup l)); vm_compute; exact I
  end.

Lemma past_close_false (issue : Issue) (ev : StatusEvent) (closed : datetime) :
  closed_at issue = Some closed ->
  createdAt ev <= closed + minutes 5 ->
  past_close issue ev = false.
Proof.
  intros Hc Hle. unfold past_close. rewrite Hc.
  apply bool_decide_eq_false_2. lia.
Qed.

Lemma past_close_open (issue : Issue) (ev : StatusEvent) :
  closed_at issue = None -> past_close issue ev = false.
Proof. intros Hc. unfold past_close. by rewrite Hc. Qed.

Lemma closed_is_Some (issue : Issue) (closed : datetime) :
  closed_at issue = Some closed ->
  String.eqb (state issue) "closed" = true -> is_Some (closed_at issue).
Proof. intros ->. eauto. Qed.

(** C5. A closed item with a single ENTERED event for status X at
    created_at + 10s, no LEFT event and closed_at = created_at + 50s:
    get_status_metrics returns 40s for X.  The statuses of the caller are
    a set: the list has no duplicate. *)
Theorem closed_trailing_entered_credited (strptime : string -> option datetime)
  (issue : Issue) (statuses : list string) (now : nat -> datetime)
  (X : string) :
  NoDup statuses ->
  state issue = "closed" ->
  closed_at issue = Some (created_at issue + seconds 50) ->
  get_status_events strptime issue statuses
  = inr [ {| createdAt := created_at issue + seconds 10;
             event := Statused;
             statusName := X |} ] ->
  exists m,
    get_status_metrics strptime issue statuses now = inr m
    /\ m !! X = Some (Some (seconds 40)).
Proof.
  intros Hnd Hstate Hclosed Hevs.
  pose proof (get_status_events_of_interest _ _ _ _ Hevs) as HX.
  rewrite Forall_singleton in HX. simpl in HX.
  apply list_elem_of_lookup in HX as [j Hj].
  unfold get_status_metrics. rewrite Hevs. cbn [bind].
  destruct (accumulate_total issue statuses now
    [ {| createdAt := created_at issue + seconds 10;
         event := Statused; statusName := X |} ]
    (closed_is_Some _ _ Hclosed)) as [m Hm].
  exists m. split; [done|].
  destruct (accumulate_at _ _ _ _ _ _ _ Hnd Hj Hm) as (v & Hv & ->).
  cbn [fold_left] in Hv. unfold step_track in Hv.
  rewrite (past_close_false _ _ _ Hclosed) in Hv
    by (unfold minutes, seconds; simpl; lia).
  rewrite bool_decide_eq_true_2 in Hv by done.
  unfold finalize_entry in Hv. cbn in Hv.
  rewrite Hstate, Hclosed in Hv. cbn in Hv.
  inversion Hv. do 2 f_equal. unfold seconds. lia.
Qed.

Lemma closed_trailing_entered_credited_witness :
  exists m,
    get_status_metrics Iso8601.strptime_utc
      (example_issue (Some (created_example + seconds 50)) "closed"
         [status_change "2024-03-01T12:00:10Z" "In Progress" ""])
      ["Todo"; "In Progress"] (fun _ => 0) = inr m
    /\ m !! "In Progress" = Some (Some (seconds 40)).
Proof.
  apply closed_trailing_entered_credited.
  - solve_NoDup.
  - reflexivity.
  - reflexivity.
  - vm_compute. reflexivity.
Defined.

(* the entry of a status in the result of get_status_metrics, from the
   events of the item *)
Lemma get_status_metrics_at (strptime : string -> option datetime)
  (issue : Issue) (statuses : list string) (now : nat -> datetime)
  (evs : list StatusEvent) (X : string) :
  NoDup statuses ->
  X ∈ statuses ->
  (String.eqb (state issue) "closed" = true -> is_Some (closed_at issue)) ->
  get_status_events strptime issue statuses = inr evs ->
  let tr := fold_left (step_track issue X) evs untouched in
  exists m j v,
    get_status_metrics strptime issue statuses now = inr m
    /\ statuses !! j = Some X
    /\ finalize_entry issue (now j) tr (duration tr) = inr v
    /\ m !! X = Some v.
Proof.
  intros Hnd HX Hclosed Hevs tr.
  apply list_elem_of_lookup in HX as [j Hj].
  unfold get_status_metrics. rewrite Hevs. cbn [bind].
  destruct (accumulate_total issue statuses now evs Hclosed) as [m Hm].
  destruct (accumulate_at _ _ _ _ _ _ _ Hnd Hj Hm) as (v & Hv & Hmv).
  by exists m, j, v.
Qed.

(** C1. A closed item whose events for status X are ENTERED at
    created_at + 10s and LEFT at created_at + 70s, with
    closed_at = created_at + 200s: the interval is 60s long, and
    get_status_metrics returns 260s for X, the 60s of the interval plus the
    200s from creation to closure that the second loop adds to every
    status that was entered on a closed item. *)
Theorem closed_matched_interval_gets_lifetime
  (strptime : string -> option datetime) (issue : Issue)
  (statuses : list string) (now : nat -> datetime) (X : string) :
  NoDup statuses ->
  state issue = "closed" ->
  closed_at issue = Some (created_at issue + seconds 200) ->
  get_status_events strptime issue statuses
  = inr [ {| createdAt := created_at issue + seconds 10;
             event := Statused;
             statusName := X |};
          {| createdAt := created_at issue + seconds 70;
             event := Unstatused;
             statusName := X |} ] ->
  exists m,
    get_status_metrics strptime issue statuses now = inr m
    /\ m !! X = Some (Some (seconds 260))
    /\ m !! X <> Some (Some (seconds 60)).
Proof.
  intros Hnd Hstate Hclosed Hevs.
  pose proof (get_status_events_of_interest _ _ _ _ Hevs) as HX.
  apply Forall_inv in HX. simpl in HX.
  destruct (get_status_metrics_at strptime issue statuses now _ X Hnd HX
              (closed_is_Some _ _ Hclosed) Hevs)
    as (m & j & v & Hm & _ & Hv & Hmv).
  exists m. split; [done|]. rewrite Hmv. clear Hmv Hm.
  cbn [fold_left] in Hv. unfold step_track in Hv.
  rewrite !(past_close_false _ _ _ Hclosed) in Hv
    by (unfold minutes, seconds; simpl; lia).
  rewrite !bool_decide_eq_true_2 in Hv by done.
  unfold finalize_entry in Hv. cbn in Hv.
  rewrite Hstate, Hclosed in Hv. cbn in Hv.
  inversion Hv. unfold seconds. split.
  - do 2 f_equal. lia.
  - intros [= H]. lia.
Qed.

Lemma closed_matched_interval_gets_lifetime_witness :
  exists m,
    get_status_metrics Iso8601.strptime_utc
      (example_issue (Some (created_example + seconds 200)) "closed"
         [status_change "2024-03-01T12:00:10Z" "In Progress" "";
          status_change "2024-03-01T12:01:10Z" "Done" "In Progress"])
      ["In Progress"] (fun _ => 0) = inr m
    /\ m !! "In Progress" = Some (Some (seconds 260))
    /\ m !! "In Progress" <> Some (Some (seconds 60)).
Proof.
  apply closed_matched_interval_gets_lifetime.
  - solve_NoDup.
  - reflexivity.
  - reflexivity.
  - vm_compute. reflexivity.
Defined.

(** C6. An open item with a single ENTERED event for status X at
    created_at + 10s and no LEFT event, every reading of the clock being
    created_at + 100s: get_status_metrics returns 90s for X.  And on an
    open item, a status X whose last processed event is a LEFT keeps the
    duration the loop over the events accumulated: no time up to now is
    added. *)
Theorem open_item_trailing_time :
  (forall (strptime : string -> option datetime) (issue : Issue)
          (statuses : list string) (now : nat -> datetime) (X : string),
     NoDup statuses ->
     state issue <> "closed" ->
     closed_at issue = None ->
     (forall i, now i = created_at issue + seconds 100) ->
     get_status_events strptime issue statuses
     = inr [ {| createdAt := created_at issue + seconds 10;
                event := Statused;
                statusName := X |} ] ->
     exists m,
       get_status_metrics strptime issue statuses now = inr m
       /\ m !! X = Some (Some (seconds 90)))
  /\ (forall (strptime : string -> option datetime) (issue : Issue)
             (statuses : list string) (now : nat -> datetime)
             (evs : list StatusEvent) (st : tally) (X : string),
        state issue <> "closed" ->
        get_status_events strptime issue statuses = inr evs ->
        for_each (process_event issue statuses) evs (initial_tally statuses)
        = inr st ->
        status_last_event_type st !! X = Some Unstatused ->
        exists m,
          get_status_metrics strptime issue statuses now = inr m
          /\ m !! X = status_metrics st !! X).
Proof.
  split.
  - intros strptime issue statuses now X Hnd Hstate Hclosed Hnow Hevs.
    apply String.eqb_neq in Hstate.
    pose proof (get_status_events_of_interest _ _ _ _ Hevs) as HX.
    apply Forall_inv in HX. simpl in HX.
    destruct (get_status_metrics_at strptime issue statuses now _ X Hnd HX
                ltac:(by rewrite Hstate) Hevs)
      as (m & j & v & Hm & _ & Hv & Hmv).
    exists m. split; [done|]. rewrite Hmv. clear Hmv Hm.
    cbn [fold_left] in Hv. unfold step_track in Hv.
    rewrite (past_close_open _ _ Hclosed) in Hv.
    rewrite bool_decide_eq_true_2 in Hv by done.
    unfold finalize_entry in Hv. cbn in Hv.
    rewrite Hstate, Hnow in Hv. cbn in Hv.
    inversion Hv. do 2 f_equal. unfold seconds. lia.
  - intros strptime issue statuses now evs st X Hstate Hevs Hrun Hlast.
    apply String.eqb_neq in Hstate.
    unfold get_status_metrics. rewrite Hevs. cbn [bind].
    destruct (accumulate_total issue statuses now evs
                ltac:(by rewrite Hstate)) as [m Hm].
    exists m. split; [done|].
    destruct (accumulate_run issue statuses now evs)
      as (st' & Hrun' & [Hk Hl] & Htr & _).
    rewrite Hrun in Hrun'. inversion Hrun'; subst st'. clear Hrun'.
    assert (X ∈ statuses) as HX by (apply Hl; rewrite Hlast; eauto).
    rewrite (accumulate_unchanged _ _ _ _ _ _ HX Hm).
    + rewrite <- (Htr X HX). unfold track_of; simpl.
      by destruct (proj1 (Hk X) HX) as [v ->].
    + intros t v. rewrite <- (Htr X HX). unfold finalize_entry, track_of.
      cbn [entered last_event_type]. rewrite Hstate, Hlast.
      by case_bool_decide.
Qed.

Lemma open_item_trailing_time_witness :
  (exists m,
     get_status_metrics Iso8601.strptime_utc
       (example_issue None "open"
          [status_change "2024-03-01T12:00:10Z" "In Progress" ""])
       ["In Progress"; "Done"] (fun _ => created_example + seconds 100)
     = inr m
     /\ m !! "In Progress" = Some (Some (seconds 90)))
  /\ (exists m,
        get_status_metrics Iso8601.strptime_utc
          (example_issue None "open"
             [status_change "2024-03-01T12:00:10Z" "In Progress" "";
              status_change "2024-03-01T12:01:10Z" "Done" "In Progress"])
          ["In Progress"; "Done"] (fun _ => created_example + seconds 100)
        = inr m
        /\ m !! "In Progress" = Some (Some (seconds 60))).
Proof.
  destruct open_item_trailing_time as [Hactive Hleft]. split.
  - apply Hactive.
    + solve_NoDup.
    + discriminate.
    + reflexivity.
    + intros i. reflexivity.
    + vm_compute. reflexivity.
  - pose (issue := example_issue None "open"
             [status_change "2024-03-01T12:00:10Z" "In Progress" "";
              status_change "2024-03-01T12:01:10Z" "Done" "In Progress"]).
    pose (evs :=
      [ {| createdAt := created_example + seconds 10; event := Statused;
           statusName := "In Progress" |};
        {| createdAt := created_example + seconds 70; event := Statused;
           statusName := "Done" |};
        {| createdAt := created_example + seconds 70; event := Unstatused;
           statusName := "In Progress" |} ]).
    pose (st :=
      match for_each (process_event issue ["In Progress"; "Done"]) evs
              (initial_tally ["In Progress"; "Done"]) with
      | inr st => st
      | inl _ => initial_tally []
      end).
    destruct (Hleft Iso8601.strptime_utc issue ["In Progress"; "Done"]
                (fun _ => created_example + seconds 100) evs st
                "In Progress") as (m & Hm & Hmx).
    + discriminate.
    + vm_compute. reflexivity.
    + vm_compute. reflexivity.
    + vm_compute. reflexivity.
    + exists m. split; [exact Hm|]. rewrite Hmx. vm_compute. reflexivity.
Defined.

(** C10. Some closed item gets a strictly negative duration: when the only
    event of status X is an ENTERED event later than closed_at and within
    the five minutes of grace, the event is not skipped, the loop subtracts
    its offset from created_at, the second loop adds closed_at - created_at,
    and get_status_metrics returns closed_at minus the timestamp of the
    event for X, which is negative. *)
Theorem entered_after_close_is_negative
  (strptime : string -> option datetime) (issue : Issue)
  (statuses : list string) (now : nat -> datetime) (X : string)
  (closed t : datetime) :
  NoDup statuses ->
  state issue = "closed" ->
  closed_at issue = Some closed ->
  closed < t ->
  t <= closed + minutes 5 ->
  get_status_events strptime issue statuses
  = inr [ {| createdAt := t; event := Statused; statusName := X |} ] ->
  exists m,
    get_status_metrics strptime issue statuses now = inr m
    /\ m !! X = Some (Some (closed - t))
    /\ closed - t < 0.
Proof.
  intros Hnd Hstate Hclosed Hlt Hle Hevs.
  pose proof (get_status_events_of_interest _ _ _ _ Hevs) as HX.
  apply Forall_inv in HX. simpl in HX.
  destruct (get_status_metrics_at strptime issue statuses now _ X Hnd HX
              (closed_is_Some _ _ Hclosed) Hevs)
    as (m & j & v & Hm & _ & Hv & Hmv).
  exists m. split; [done|]. rewrite Hmv. clear Hmv Hm.
  cbn [fold_left] in Hv. unfold step_track in Hv.
  rewrite (past_close_false _ _ _ Hclosed) in Hv by done.
  rewrite bool_decide_eq_true_2 in Hv by done.
  unfold finalize_entry in Hv. cbn in Hv.
  rewrite Hstate, Hclosed in Hv. cbn in Hv.
  inversion Hv. split; [|lia]. do 2 f_equal. lia.
Qed.

Lemma entered_after_close_is_negative_witness :
  exists m,
    get_status_metrics Iso8601.strptime_utc
      (example_issue (Some (created_example + seconds 50)) "closed"
         [status_change "2024-03-01T12:02:00Z" "Done" ""])
      ["Done"] (fun _ => 0) = inr m
    /\ m !! "Done"
       = Some (Some (created_example + seconds 50
                     - (created_example + seconds 120)))
    /\ created_example + seconds 50 - (created_example + seconds 120) < 0.
Proof.
  apply entered_after_close_is_negative.
  - solve_NoDup.
  - reflexivity.
  - reflexivity.
  - reflexivity.
  - discriminate.
  - vm_compute. reflexivity.
Defined.

(* --------------------------------------------------------------------- *)
(* Events past the close of the issue                                     *)
(* --------------------------------------------------------------------- *)

Lemma for_each_ext {A St} (f g : St -> A -> result St) (xs : list A) :
  (forall acc x, f acc x = g acc x) ->
  forall acc, for_each f xs acc = for_each g xs acc.
Proof.
  intros Hfg. induction xs as [|x xs IH]; intros acc; simpl; [done|].
  rewrite Hfg. destruct (g acc x); simpl; [done|]. apply IH.
Qed.

(* the accumulator reads the dates and the state of the issue, not its
   page *)
Lemma accumulate_same_issue (issue issue' : Issue) (statuses : list string)
  (now : nat -> datetime) (evs : list StatusEvent) :
  created_at issue' = created_at issue ->
  closed_at issue' = closed_at issue ->
  state issue' = state issue ->
  accumulate issue' statuses now evs = accumulate issue statuses now evs.
Proof.
  intros Hcr Hcl Hst. unfold accumulate.
  destruct evs as [|ev evs]; [done|].
  rewrite (for_each_ext (process_event issue' statuses)
             (process_event issue statuses)).
  - destruct (for_each (process_event issue statuses) (ev :: evs)
                (initial_tally statuses)) as [e|st]; cbn [bind]; [done|].
    apply for_each_i_ext. intros i m s.
    unfold finalize_status. by rewrite Hcr, Hcl, Hst.
  - intros st e. unfold process_event, past_close. by rewrite Hcr, Hcl.
Qed.

Lemma process_event_past_close (issue : Issue) (statuses : list string)
  (st : tally) (ev : StatusEvent) (closed : datetime) :
  closed_at issue = Some closed ->
  closed + minutes 5 < createdAt ev ->
  process_event issue statuses st ev = inr st.
Proof.
  intros Hc Hlt. unfold process_event, past_close. rewrite Hc.
  by rewrite bool_decide_eq_true_2.
Qed.

(* accumulate as its two loops, also on no event *)
Lemma accumulate_loops (issue : Issue) (statuses : list string)
  (now : nat -> datetime) (evs : list StatusEvent) :
  accumulate issue statuses now evs
  = (let* st := for_each (process_event issue statuses) evs
                  (initial_tally statuses) in
     for_each_i (finalize_status issue now st) 0 statuses (status_metrics st)).
Proof.
  destruct evs as [|ev evs]; [|done]. simpl.
  by rewrite finalize_nothing_entered.
Qed.

(** C7. On a closed item, an event later than closed_at + 5 minutes is
    skipped before anything is accumulated: the body of the loop returns
    the tally it was given (the durations, the last event types and the
    keys of statused and unstatused), and get_status_metrics returns for
    the item what it returns for the same item without that event. *)
Theorem event_past_close_is_ignored
  (strptime : string -> option datetime) (issue issue' : Issue)
  (statuses : list string) (now : nat -> datetime) (closed : datetime)
  (ev : StatusEvent) (before after : list StatusEvent) :
  closed_at issue = Some closed ->
  closed + minutes 5 < createdAt ev ->
  created_at issue' = created_at issue ->
  closed_at issue' = closed_at issue ->
  state issue' = state issue ->
  get_status_events strptime issue statuses = inr (before ++ ev :: after) ->
  get_status_events strptime issue' statuses = inr (before ++ after) ->
  (forall st, process_event issue statuses st ev = inr st)
  /\ get_status_metrics strptime issue statuses now
     = get_status_metrics strptime issue' statuses now.
Proof.
  intros Hc Hlt Hcr Hcl Hst Hevs Hevs'.
  assert (forall st, process_event issue statuses st ev = inr st) as Hskip.
  { intros st. by eapply process_event_past_close. }
  split; [done|].
  unfold get_status_metrics. rewrite Hevs, Hevs'. cbn [bind].
  rewrite (accumulate_same_issue issue issue') by done.
  rewrite !accumulate_loops, !for_each_app.
  destruct (for_each (process_event issue statuses) before
              (initial_tally statuses)) as [e|st]; cbn [bind]; [done|].
  cbn [for_each]. by rewrite Hskip.
Qed.

Lemma event_past_close_is_ignored_witness :
  (forall st,
     process_event
       (example_issue (Some (created_example + seconds 50)) "closed"
          [status_change "2024-03-01T12:00:10Z" "In Progress" "";
           status_change "2024-03-01T12:10:00Z" "Done" "In Progress"])
       ["In Progress"; "Done"] st
       {| createdAt := created_example + seconds 600; event := Statused;
          statusName := "Done" |} = inr st)
  /\ get_status_metrics Iso8601.strptime_utc
       (example_issue (Some (created_example + seconds 50)) "closed"
          [status_change "2024-03-01T12:00:10Z" "In Progress" "";
           status_change "2024-03-01T12:10:00Z" "Done" "In Progress"])
       ["In Progress"; "Done"] (fun _ => 0)
     = get_status_metrics Iso8601.strptime_utc
         (example_issue (Some (created_example + seconds 50)) "closed"
            [status_change "2024-03-01T12:00:10Z" "In Progress" "";
             status_change "2024-03-01T12:10:00Z" "Review" "In Progress"])
         ["In Progress"; "Done"] (fun _ => 0).
Proof.
  apply (event_past_close_is_ignored Iso8601.strptime_utc _ _ _ _
           (created_example + seconds 50) _
           [ {| createdAt := created_example + seconds 10; event := Statused;
                statusName := "In Progress" |} ]
           [ {| createdAt := created_example + seconds 600;
                event := Unstatused; statusName := "In Progress" |} ]).
  - reflexivity.
  - reflexivity.
  - reflexivity.
  - reflexivity.
  - reflexivity.
  - vm_compute. reflexivity.
  - vm_compute. reflexivity.
Defined.

(* --------------------------------------------------------------------- *)
(* The clock                                                              *)
(* --------------------------------------------------------------------- *)

Lemma metrics_le_refl m : metrics_le m m.
Proof. intros s. destruct (m !! s) as [[a|]|]; simpl; done || lia. Qed.

Lemma finalize_status_mono (issue : Issue) (now1 now2 : nat -> datetime)
  (st : tally) (i : nat) (x : string) m1 m2 m1' m2' :
  String.eqb (state issue) "closed" = false ->
  now1 i <= now2 i ->
  metrics_le m1 m2 ->
  finalize_status issue now1 st i m1 x = inr m1' ->
  finalize_status issue now2 st i m2 x = inr m2' ->
  metrics_le m1' m2'.
Proof.
  intros Hopen Hnow Hle. unfold finalize_status. rewrite Hopen.
  case_bool_decide; [|by intros [= <-] [= <-]].
  destruct (status_last_event_type st !! x) as [[]|];
    [|by intros [= <-] [= <-]|done].
  unfold iadd. pose proof (Hle x) as Hx.
  destruct (m1 !! x) as [[a|]|], (m2 !! x) as [[b|]|]; simpl; try done.
  intros [= <-] [= <-] s. destruct (decide (x = s)) as [<-|?].
  - rewrite !lookup_insert_eq. lia.
  - rewrite !lookup_insert_ne by done. apply Hle.
Qed.

Lemma finalize_mono (issue : Issue) (now1 now2 : nat -> datetime)
  (st : tally) (l : list string) :
  String.eqb (state issue) "closed" = false ->
  (forall i, now1 i <= now2 i) ->
  forall i m1 m2 m1' m2',
    metrics_le m1 m2 ->
    for_each_i (finalize_status issue now1 st) i l m1 = inr m1' ->
    for_each_i (finalize_status issue now2 st) i l m2 = inr m2' ->
    metrics_le m1' m2'.
Proof.
  intros Hopen Hnow.
  induction l as [|x l IH]; intros i m1 m2 m1' m2' Hle; simpl.
  - by intros [= <-] [= <-].
  - destruct (finalize_status issue now1 st i m1 x) as [e|m1a] eqn:H1;
      simpl; [done|].
    destruct (finalize_status issue now2 st i m2 x) as [e|m2a] eqn:H2;
      simpl; [done|].
    apply IH. eapply finalize_status_mono; eauto.
Qed.

Lemma finalize_entry_Some (issue : Issue) (t : datetime) (tr : track)
  (a : timedelta) v :
  finalize_entry issue t tr (Some a) = inr v -> is_Some v.
Proof.
  unfold finalize_entry.
  destruct (entered tr); [|by intros [= <-]].
  destruct (String.eqb (state issue) "closed").
  - destruct (closed_at issue); [|done]. by intros [= <-].
  - destruct (last_event_type tr) as [[]|]; [| |done]; by intros [= <-].
Qed.

(* the loop leaves a duration where there is one *)
Lemma finalize_keeps_durations (issue : Issue) (now : nat -> datetime)
  (st : tally) (s : string) (l : list string) :
  forall i m m',
    for_each_i (finalize_status issue now st) i l m = inr m' ->
    (exists a, m !! s = Some (Some a)) ->
    exists a, m' !! s = Some (Some a).
Proof.
  induction l as [|x l IH]; intros i m m'; simpl.
  - by intros [= <-].
  - destruct (finalize_status issue now st i m x) as [e|m1] eqn:Hx;
      simpl; [done|].
    intros Hrun [a Ha]. apply (IH _ _ _ Hrun).
    destruct (decide (x = s)) as [->|Hne].
    + rewrite (finalize_status_entry _ _ _ _ _ _ _ Ha) in Hx.
      destruct (finalize_entry issue (now i) (track_of st s) (Some a))
        as [e|v] eqn:Hv; simpl in Hx; [done|].
      inversion Hx. rewrite lookup_insert_eq.
      destruct (finalize_entry_Some _ _ _ _ _ Hv) as [b ->]. eauto.
    + exists a. rewrite <- Ha.
      assert (s ∉ [x]) as Hsx.
      { rewrite elem_of_cons, elem_of_nil. naive_solver. }
      apply (finalize_unchanged issue now st s [x] (or_introl Hsx) i m m1).
      simpl. by rewrite Hx.
Qed.

(** C9. On a closed item the result does not depend on the clock: two runs
    of get_status_metrics on the same item return the same, whatever the
    two clocks read.  On an open item, when the second clock never reads
    earlier than the first, every status that is active (the last event
    type the loop recorded for it is "statused") has a duration in both
    results, and the one of the second run is not smaller. *)
Theorem rerun_later
  (strptime : string -> option datetime) (issue : Issue)
  (statuses : list string) (now1 now2 : nat -> datetime) :
  (state issue = "closed" ->
   get_status_metrics strptime issue statuses now1
   = get_status_metrics strptime issue statuses now2)
  /\ (state issue <> "closed" ->
      (forall i, now1 i <= now2 i) ->
      forall (evs : list StatusEvent) (st : tally) (S : string),
        get_status_events strptime issue statuses = inr evs ->
        for_each (process_event issue statuses) evs (initial_tally statuses)
        = inr st ->
        status_last_event_type st !! S = Some Statused ->
        exists m1 m2 d1 d2,
          get_status_metrics strptime issue statuses now1 = inr m1
          /\ get_status_metrics strptime issue statuses now2 = inr m2
          /\ m1 !! S = Some (Some d1)
          /\ m2 !! S = Some (Some d2)
          /\ d1 <= d2).
Proof.
  split.
  - intros Hstate. unfold get_status_metrics.
    destruct (get_status_events strptime issue statuses) as [e|evs];
      cbn [bind]; [done|].
    rewrite !accumulate_loops.
    destruct (for_each (process_event issue statuses) evs
                (initial_tally statuses)) as [e|st]; cbn [bind]; [done|].
    apply for_each_i_ext. intros i m s. unfold finalize_status.
    by rewrite Hstate.
  - intros Hstate Hnow evs st S Hevs Hrun Hlast.
    apply String.eqb_neq in Hstate.
    unfold get_status_metrics. rewrite Hevs. cbn [bind].
    destruct (accumulate_total issue statuses now1 evs
                ltac:(by rewrite Hstate)) as [m1 Hm1].
    destruct (accumulate_total issue statuses now2 evs
                ltac:(by rewrite Hstate)) as [m2 Hm2].
    destruct (accumulate_run issue statuses now1 evs)
      as (st' & Hrun' & [Hk Hl] & Htr & _).
    rewrite Hrun in Hrun'. inversion Hrun'; subst st'. clear Hrun'.
    assert (S ∈ statuses) as HS by (apply Hl; rewrite Hlast; eauto).
    pose proof Hm1 as Hf1. pose proof Hm2 as Hf2.
    rewrite accumulate_loops, Hrun in Hf1, Hf2. cbn [bind] in Hf1, Hf2.
    assert (exists a, status_metrics st !! S = Some (Some a)) as Ha.
    { pose proof (fold_step_track_ok issue S evs untouched untouched_ok)
        as (_ & H2 & _).
      rewrite <- (Htr S HS) in H2. unfold track_of in H2; simpl in H2.
      rewrite Hlast in H2. destruct (H2 ltac:(eauto)) as [a Ha].
      destruct (proj1 (Hk S) HS) as [v Hv]. rewrite Hv in Ha |- *.
      simpl in Ha. subst v. eauto. }
    destruct (finalize_keeps_durations _ _ _ S _ _ _ _ Hf1 Ha) as [d1 Hd1].
    destruct (finalize_keeps_durations _ _ _ S _ _ _ _ Hf2 Ha) as [d2 Hd2].
    exists m1, m2, d1, d2. repeat split; try done.
    pose proof (finalize_mono issue now1 now2 st statuses Hstate Hnow
                  _ _ _ _ _ (metrics_le_refl _) Hf1 Hf2 S) as Hle.
    by rewrite Hd1, Hd2 in Hle.
Qed.

Lemma rerun_later_witness :
  get_status_metrics Iso8601.strptime_utc
    (example_issue (Some (created_example + seconds 50)) "closed"
       [status_change "2024-03-01T12:00:10Z" "In Progress" ""])
    ["In Progress"] (fun _ => created_example + seconds 100)
  = get_status_metrics Iso8601.strptime_utc
      (example_issue (Some (created_example + seconds 50)) "closed"
         [status_change "2024-03-01T12:00:10Z" "In Progress" ""])
      ["In Progress"] (fun _ => created_example + seconds 500)
  /\ exists m1 m2 d1 d2,
       get_status_metrics Iso8601.strptime_utc
         (example_issue None "open"
            [status_change "2024-03-01T12:00:10Z" "In Progress" ""])
         ["In Progress"] (fun _ => created_example + seconds 100) = inr m1
       /\ get_status_metrics Iso8601.strptime_utc
            (example_issue None "open"
               [status_change "2024-03-01T12:00:10Z" "In Progress" ""])
            ["In Progress"] (fun _ => created_example + seconds 500) = inr m2
       /\ m1 !! "In Progress" = Some (Some d1)
       /\ m2 !! "In Progress" = Some (Some d2)
       /\ d1 <= d2.
Proof.
  split.
  - apply rerun_later. reflexivity.
  - pose (issue := example_issue None "open"
             [status_change "2024-03-01T12:00:10Z" "In Progress" ""]).
    pose (evs :=
      [ {| createdAt := created_example + seconds 10; event := Statused;
           statusName := "In Progress" |} ]).
    pose (st :=
      match for_each (process_event issue ["In Progress"]) evs
              (initial_tally ["In Progress"]) with
      | inr st => st
      | inl _ => initial_tally []
      end).
    destruct (rerun_later Iso8601.strptime_utc issue ["In Progress"]
                (fun _ => created_example + seconds 100)
                (fun _ => created_example + seconds 500)) as [_ Hopen].
    apply Hopen with (evs := evs) (st := st).
    + discriminate.
    + intros i. discriminate.
    + vm_compute. reflexivity.
    + vm_compute. reflexivity.
    + vm_compute. reflexivity.
Defined.

(* --------------------------------------------------------------------- *)
(* The aggregator                                                         *)
(* --------------------------------------------------------------------- *)

Lemma collect_status_fold (acc : gmap string (list Q))
  (metrics : gmap string (option timedelta)) (s : string) :
  map_fold collect_status acc metrics !! s
  = match metrics !! s with
    | Some (Some d) => Some (default [] (acc !! s) ++ [total_seconds d])
    | _ => acc !! s
    end.
Proof.
  apply (map_fold_weak_ind
           (fun r m => r !! s
                       = match m !! s with
                         | Some (Some d) =>
                             Some (default [] (acc !! s) ++ [total_seconds d])
                         | _ => acc !! s
                         end)).
  - by rewrite lookup_empty.
  - intros i x m r Hi Hr. destruct (decide (i = s)) as [->|Hne].
    + rewrite Hi in Hr. rewrite lookup_insert_eq. unfold collect_status.
      destruct x as [d|]; [|done]. rewrite Hr.
      destruct (acc !! s) as [samples|]; by rewrite lookup_insert_eq.
    + rewrite lookup_insert_ne by done. rewrite <- Hr.
      unfold collect_status. destruct x as [d|]; [|done].
      destruct (r !! i); by rewrite lookup_insert_ne.
Qed.

Lemma collect_issue_lookup (acc : gmap string (list Q))
  (issue : Classes.IssueWithMetrics) (s : string) :
  collect_issue acc issue !! s = extended (acc !! s) (durations_of s [issue]).
Proof.
  unfold collect_issue, durations_of. simpl.
  destruct (Classes.status_metrics issue) as [metrics|]; simpl.
  - case_bool_decide as Hempty.
    + subst metrics. rewrite lookup_empty. simpl.
      destruct (acc !! s); simpl; [by rewrite app_nil_r|done].
    + rewrite collect_status_fold.
      destruct (metrics !! s) as [[d|]|]; simpl.
      * by destruct (acc !! s).
      * destruct (acc !! s); simpl; [by rewrite app_nil_r|done].
      * destruct (acc !! s); simpl; [by rewrite app_nil_r|done].
  - destruct (acc !! s); simpl; [by rewrite app_nil_r|done].
Qed.

Lemma extended_extended (old : option (list Q)) (ds1 ds2 : list timedelta) :
  extended (extended old ds1) ds2 = extended old (ds1 ++ ds2).
Proof.
  unfold extended.
  destruct old as [l|], ds1 as [|d1 ds1], ds2 as [|d2 ds2]; simpl;
    rewrite ?app_nil_r, ?map_app, <- ?app_assoc; done.
Qed.

(* the first loop collects, for each status, its durations in seconds *)
Lemma collect_samples_lookup
  (issues_with_metrics : list Classes.IssueWithMetrics) (s : string) :
  collect_samples issues_with_metrics !! s
  = match durations_of s issues_with_metrics with
    | [] => None
    | ds => Some (map total_seconds ds)
    end.
Proof.
  unfold collect_samples.
  assert (forall acc,
    fold_left collect_issue issues_with_metrics acc !! s
    = extended (acc !! s) (durations_of s issues_with_metrics)) as Hgen.
  { induction issues_with_metrics as [|issue rest IH]; intros acc.
    - simpl. unfold extended. destruct (acc !! s); simpl; [|done].
      by rewrite app_nil_r.
    - cbn [fold_left]. rewrite IH, collect_issue_lookup, extended_extended.
      f_equal. unfold durations_of. simpl. by rewrite app_nil_r. }
  rewrite Hgen, lookup_empty. unfold extended.
  by destruct (durations_of s issues_with_metrics).
Qed.

Lemma summarize_aligned (time_in_statuses : gmap string (list Q)) :
  aligned (summarize time_in_statuses).
Proof.
  intros s. unfold summarize; simpl. rewrite !lookup_fmap.
  destruct (time_in_statuses !! s); simpl; split; split; done.
Qed.

Lemma fill_missing_lookup (agg : aggregates) (x s : string) :
  aligned agg ->
  let agg' := fill_missing agg x in
  aligned agg'
  /\ average_time_in_statuses agg' !! s
     = (if bool_decide (x = s)
        then Some (default None (average_time_in_statuses agg !! s))
        else average_time_in_statuses agg !! s)
  /\ med_time_in_statuses agg' !! s
     = (if bool_decide (x = s)
        then Some (default None (med_time_in_statuses agg !! s))
        else med_time_in_statuses agg !! s)
  /\ ninety_percentile_in_statuses agg' !! s
     = (if bool_decide (x = s)
        then Some (default None (ninety_percentile_in_statuses agg !! s))
        else ninety_percentile_in_statuses agg !! s).
Proof.
  intros Hal. unfold fill_missing.
  destruct (average_time_in_statuses agg !! x) as [v|] eqn:Hx; simpl.
  - split; [done|]. case_bool_decide as Hxs; [subst s|done].
    destruct (Hal x) as [Hmed Hp90]. rewrite Hx.
    destruct (med_time_in_statuses agg !! x) as [vm|];
      [|pose proof (proj2 Hmed eq_refl); congruence].
    destruct (ninety_percentile_in_statuses agg !! x) as [vp|];
      [|pose proof (proj2 Hp90 eq_refl); congruence].
    done.
  - split.
    + intros s'. simpl. destruct (decide (x = s')) as [<-|?].
      * rewrite !lookup_insert_eq. split; split; done.
      * rewrite !lookup_insert_ne by done. apply Hal.
    + case_bool_decide as Hxs; [subst s|by rewrite !lookup_insert_ne].
      rewrite !lookup_insert_eq. destruct (Hal x) as [Hmed Hp90].
      by rewrite Hx, (proj1 Hmed Hx), (proj1 Hp90 Hx).
Qed.

(* the last loop: a status of the list that has no entry gets None, in
   each of the three dicts *)
Lemma fill_missing_fold (statuses : list string) (s : string) :
  forall agg,
    aligned agg ->
    let agg' := fold_left fill_missing statuses agg in
    average_time_in_statuses agg' !! s
    = (if bool_decide (s ∈ statuses)
       then Some (default None (average_time_in_statuses agg !! s))
       else average_time_in_statuses agg !! s)
    /\ med_time_in_statuses agg' !! s
       = (if bool_decide (s ∈ statuses)
          then Some (default None (med_time_in_statuses agg !! s))
          else med_time_in_statuses agg !! s)
    /\ ninety_percentile_in_statuses agg' !! s
       = (if bool_decide (s ∈ statuses)
          then Some (default None (ninety_percentile_in_statuses agg !! s))
          else ninety_percentile_in_statuses agg !! s).
Proof.
  induction statuses as [|x l IH]; intros agg Hal; cbn [fold_left].
  - rewrite bool_decide_eq_false_2 by apply not_elem_of_nil. done.
  - destruct (fill_missing_lookup agg x s Hal) as (Hal1 & Ha & Hm & Hp).
    destruct (IH _ Hal1) as (Ha' & Hm' & Hp').
    rewrite Ha', Hm', Hp', Ha, Hm, Hp. clear.
    destruct (decide (x = s)) as [->|Hne].
    + rewrite !(bool_decide_eq_true_2 (s = s)) by done.
      rewrite !(bool_decide_eq_true_2 (s ∈ s :: l))
        by (apply elem_of_cons; by left).
      by case_bool_decide.
    + rewrite !(bool_decide_eq_false_2 (x = s)) by done.
      assert (s ∈ x :: l <-> s ∈ l) as Hiff
        by (rewrite elem_of_cons; naive_solver).
      by rewrite (bool_decide_ext _ _ Hiff).
Qed.

Lemma stats_lookup
  (issues_with_metrics : list Classes.IssueWithMetrics)
  (statuses : list string) :
  let agg :=
    fold_left fill_missing statuses
      (summarize (collect_samples issues_with_metrics)) in
  let stats := get_stats_time_in_statuses issues_with_metrics statuses in
  stats !! "avg" = Some (average_time_in_statuses agg)
  /\ stats !! "med" = Some (med_time_in_statuses agg)
  /\ stats !! "90p" = Some (ninety_percentile_in_statuses agg).
Proof.
  unfold get_stats_time_in_statuses. cbn zeta. repeat split.
Qed.

(* a status whose samples are given: the three aggregates *)
Lemma stats_of_samples
  (issues_with_metrics : list Classes.IssueWithMetrics)
  (statuses : list string) (s : string) (d : timedelta)
  (ds : list timedelta) :
  durations_of s issues_with_metrics = d :: ds ->
  let time_list := map total_seconds (d :: ds) in
  exists avg med p90,
    get_stats_time_in_statuses issues_with_metrics statuses !! "avg"
    = Some avg
    /\ get_stats_time_in_statuses issues_with_metrics statuses !! "med"
       = Some med
    /\ get_stats_time_in_statuses issues_with_metrics statuses !! "90p"
       = Some p90
    /\ avg !! s = Some (Some (seconds (numpy.round (numpy.average time_list))))
    /\ med !! s = Some (Some (seconds (numpy.round (numpy.median time_list))))
    /\ p90 !! s
       = Some (Some (seconds (numpy.round (numpy.percentile time_list 90)))).
Proof.
  intros Hds time_list.
  destruct (stats_lookup issues_with_metrics statuses) as (Ha & Hm & Hp).
  eexists _, _, _. split; [exact Ha|]. split; [exact Hm|].
  split; [exact Hp|].
  destruct (fill_missing_fold statuses s _
              (summarize_aligned (collect_samples issues_with_metrics)))
    as (-> & -> & ->).
  unfold summarize; cbn [average_time_in_statuses med_time_in_statuses
                         ninety_percentile_in_statuses].
  rewrite !lookup_fmap, collect_samples_lookup, Hds. cbn [fmap option_fmap option_map default].
  by case_bool_decide.
Qed.

(* a status of the list without any sample: None in the three dicts *)
Lemma stats_without_samples
  (issues_with_metrics : list Classes.IssueWithMetrics)
  (statuses : list string) (s : string) :
  s ∈ statuses ->
  durations_of s issues_with_metrics = [] ->
  exists avg med p90,
    get_stats_time_in_statuses issues_with_metrics statuses !! "avg"
    = Some avg
    /\ get_stats_time_in_statuses issues_with_metrics statuses !! "med"
       = Some med
    /\ get_stats_time_in_statuses issues_with_metrics statuses !! "90p"
       = Some p90
    /\ avg !! s = Some None
    /\ med !! s = Some None
    /\ p90 !! s = Some None.
Proof.
  intros Hs Hds.
  destruct (stats_lookup issues_with_metrics statuses) as (Ha & Hm & Hp).
  eexists _, _, _. split; [exact Ha|]. split; [exact Hm|].
  split; [exact Hp|].
  destruct (fill_missing_fold statuses s _
              (summarize_aligned (collect_samples issues_with_metrics)))
    as (-> & -> & ->).
  unfold summarize; cbn [average_time_in_statuses med_time_in_statuses
                         ninety_percentile_in_statuses].
  rewrite !lookup_fmap, collect_samples_lookup, Hds.
  by rewrite bool_decide_eq_true_2.
Qed.

(* every status of the list is a key of the three dicts *)
Lemma stats_keys
  (issues_with_metrics : list Classes.IssueWithMetrics)
  (statuses : list string) (s : string) :
  s ∈ statuses ->
  exists avg med p90,
    get_stats_time_in_statuses issues_with_metrics statuses !! "avg"
    = Some avg
    /\ get_stats_time_in_statuses issues_with_metrics statuses !! "med"
       = Some med
    /\ get_stats_time_in_statuses issues_with_metrics statuses !! "90p"
       = Some p90
    /\ is_Some (avg !! s) /\ is_Some (med !! s) /\ is_Some (p90 !! s).
Proof.
  intros Hs.
  destruct (stats_lookup issues_with_metrics statuses) as (Ha & Hm & Hp).
  eexists _, _, _. split; [exact Ha|]. split; [exact Hm|].
  split; [exact Hp|].
  destruct (fill_missing_fold statuses s _
              (summarize_aligned (collect_samples issues_with_metrics)))
    as (-> & -> & ->).
  rewrite bool_decide_eq_true_2 by done. eauto.
Qed.

Example three_items_durations :
  durations_of "In Progress" three_items
  = [seconds 10; seconds 20; seconds 30]
  /\ durations_of "Done" three_items = [].
Proof. split; reflexivity. Qed.

(** C2, as the code has it.  When the durations of status X over the items
    are 10s, 20s and 30s, get_stats_time_in_statuses gives avg = 20s,
    med = 20s and 90p = 28s for X (the 90th percentile by linear
    interpolation between the ranks: 20 + 0.8 * (30 - 20)), each rounded to
    a whole second.  And a status of the configured list with no duration
    in any item is a key of the three dicts, with the value None. *)
Theorem stats_of_three_samples :
  (forall (issues_with_metrics : list Classes.IssueWithMetrics)
          (statuses : list string) (X : string),
     durations_of X issues_with_metrics
     = [seconds 10; seconds 20; seconds 30] ->
     exists avg med p90,
       get_stats_time_in_statuses issues_with_metrics statuses !! "avg"
       = Some avg
       /\ get_stats_time_in_statuses issues_with_metrics statuses !! "med"
          = Some med
       /\ get_stats_time_in_statuses issues_with_metrics statuses !! "90p"
          = Some p90
       /\ avg !! X = Some (Some (seconds 20))
       /\ med !! X = Some (Some (seconds 20))
       /\ p90 !! X = Some (Some (seconds 28)))
  /\ (forall (issues_with_metrics : list Classes.IssueWithMetrics)
             (statuses : list string) (S : string),
        S ∈ statuses ->
        durations_of S issues_with_metrics = [] ->
        exists avg med p90,
          get_stats_time_in_statuses issues_with_metrics statuses !! "avg"
          = Some avg
          /\ get_stats_time_in_statuses issues_with_metrics statuses !! "med"
             = Some med
          /\ get_stats_time_in_statuses issues_with_metrics statuses !! "90p"
             = Some p90
          /\ avg !! S = Some None
          /\ med !! S = Some None
          /\ p90 !! S = Some None).
Proof.
  split.
  - intros issues_with_metrics statuses X Hds.
    destruct (stats_of_samples issues_with_metrics statuses X _ _ Hds)
      as (avg & med & p90 & Ha & Hm & Hp & Hax & Hmx & Hpx).
    exists avg, med, p90. repeat split; try done.
  - intros issues_with_metrics statuses S HS Hds.
    by apply stats_without_samples.
Qed.

Lemma stats_of_three_samples_witness :
  (exists avg med p90,
     get_stats_time_in_statuses three_items ["In Progress"; "Done"] !! "avg"
     = Some avg
     /\ get_stats_time_in_statuses three_items ["In Progress"; "Done"]
        !! "med" = Some med
     /\ get_stats_time_in_statuses three_items ["In Progress"; "Done"]
        !! "90p" = Some p90
     /\ avg !! "In Progress" = Some (Some (seconds 20))
     /\ med !! "In Progress" = Some (Some (seconds 20))
     /\ p90 !! "In Progress" = Some (Some (seconds 28)))
  /\ (exists avg med p90,
        get_stats_time_in_statuses three_items ["In Progress"; "Done"]
        !! "avg" = Some avg
        /\ get_stats_time_in_statuses three_items ["In Progress"; "Done"]
           !! "med" = Some med
        /\ get_stats_time_in_statuses three_items ["In Progress"; "Done"]
           !! "90p" = Some p90
        /\ avg !! "Done" = Some None
        /\ med !! "Done" = Some None
        /\ p90 !! "Done" = Some None).
Proof.
  destruct stats_of_three_samples as [Hsamples Hnone]. split.
  - apply Hsamples. reflexivity.
  - apply Hnone.
    + apply elem_of_cons. right. apply elem_of_cons. by left.
    + reflexivity.
Defined.

(* For the samples 10, 20 and 30 of the claim, the 90th percentile of the
   code is 28s, not 26s. *)
Lemma ninety_percentile_of_three_samples :
  exists p90,
    get_stats_time_in_statuses three_items ["In Progress"; "Done"] !! "90p"
    = Some p90
    /\ p90 !! "In Progress" = Some (Some (seconds 28))
    /\ p90 !! "In Progress" <> Some (Some (seconds 26)).
Proof.
  eexists. split; [reflexivity|]. split.
  - vm_compute. reflexivity.
  - vm_compute. discriminate.
Qed.

(** C8. Every status of the configured list is a key of the dict that
    get_status_metrics returns, and of each of the three dicts avg, med and
    90p that get_stats_time_in_statuses returns; the value may be None.
    get_status_metrics does return a dict when get_status_events returns
    and a closed issue has its closed_at; get_stats_time_in_statuses always
    returns. *)
Theorem every_status_is_a_key :
  (forall (strptime : string -> option datetime) (issue : Issue)
          (statuses : list string) (now : nat -> datetime) m,
     get_status_metrics strptime issue statuses now = inr m ->
     forall s, s ∈ statuses -> is_Some (m !! s))
  /\ (forall (strptime : string -> option datetime) (issue : Issue)
             (statuses : list string) (now : nat -> datetime) evs,
        get_status_events strptime issue statuses = inr evs ->
        (state issue = "closed" -> is_Some (closed_at issue)) ->
        exists m, get_status_metrics strptime issue statuses now = inr m)
  /\ (forall (issues_with_metrics : list Classes.IssueWithMetrics)
             (statuses : list string) (s : string),
        s ∈ statuses ->
        exists avg med p90,
          get_stats_time_in_statuses issues_with_metrics statuses !! "avg"
          = Some avg
          /\ get_stats_time_in_statuses issues_with_metrics statuses !! "med"
             = Some med
          /\ get_stats_time_in_statuses issues_with_metrics statuses !! "90p"
             = Some p90
          /\ is_Some (avg !! s) /\ is_Some (med !! s) /\ is_Some (p90 !! s)).
Proof.
  split; [|split].
  - intros strptime issue statuses now m. unfold get_status_metrics.
    destruct (get_status_events strptime issue statuses) as [e|evs];
      cbn [bind]; [done|].
    intros Hm s Hs. by apply (accumulate_keyed _ _ _ _ _ Hm).
  - intros strptime issue statuses now evs Hevs Hclosed.
    unfold get_status_metrics. rewrite Hevs. cbn [bind].
    apply accumulate_total. intros Heq. apply Hclosed.
    by apply String.eqb_eq.
  - intros. by apply stats_keys.
Qed.

Lemma every_status_is_a_key_witness :
  (forall m,
     get_status_metrics Iso8601.strptime_utc
       (example_issue None "open"
          [status_change "2024-03-01T12:00:10Z" "In Progress" ""])
       ["In Progress"; "Done"] (fun _ => created_example + seconds 100)
     = inr m ->
     is_Some (m !! "Done"))
  /\ (exists m,
        get_status_metrics Iso8601.strptime_utc
          (example_issue None "open"
             [status_change "2024-03-01T12:00:10Z" "In Progress" ""])
          ["In Progress"; "Done"] (fun _ => created_example + seconds 100)
        = inr m)
  /\ (exists avg med p90,
        get_stats_time_in_statuses three_items ["In Progress"; "Done"]
        !! "avg" = Some avg
        /\ get_stats_time_in_statuses three_items ["In Progress"; "Done"]
           !! "med" = Some med
        /\ get_stats_time_in_statuses three_items ["In Progress"; "Done"]
           !! "90p" = Some p90
        /\ is_Some (avg !! "Done") /\ is_Some (med !! "Done")
        /\ is_Some (p90 !! "Done")).
Proof.
  destruct every_status_is_a_key as (Hkeys & Hreturns & Hstats).
  split; [|split].
  - intros m Hm. apply (Hkeys _ _ _ _ _ Hm).
    apply elem_of_cons. right. apply elem_of_cons. by left.
  - apply Hreturns with
      (evs := [ {| createdAt := created_example + seconds 10;
                   event := Statused; statusName := "In Progress" |} ]).
    + vm_compute. reflexivity.
    + discriminate.
  - apply Hstats. apply elem_of_cons. right. apply elem_of_cons. by left.
Defined.

(* --------------------------------------------------------------------- *)
(* Statuses that are never entered                                        *)
(* --------------------------------------------------------------------- *)

Lemma step_track_not_processed (issue : Issue) (s : string) (tr : track)
  (ev : StatusEvent) :
  processed_for issue s ev = false -> step_track issue s tr ev = tr.
Proof.
  unfold processed_for, step_track.
  destruct (past_close issue ev); [done|].
  by case_bool_decide.
Qed.

(* the track of a status whose processed events are all LEFT events *)
Lemma fold_step_track_left_only (issue : Issue) (s : string)
  (evs : list StatusEvent) :
  (forall ev, ev ∈ evs -> processed_for issue s ev = true ->
              event ev = Unstatused) ->
  forall tr,
    let tr' := fold_left (step_track issue s) evs tr in
    entered tr' = entered tr
    /\ duration tr'
       = match offsets_of issue s evs with
         | [] => duration tr
         | os => Some (default 0 (duration tr) + total os)
         end.
Proof.
  unfold offsets_of.
  induction evs as [|ev evs IH]; intros Hleft tr; [done|].
  cbn [fold_left List.filter].
  assert (forall ev', ev' ∈ evs -> processed_for issue s ev' = true ->
                      event ev' = Unstatused) as Hrest.
  { intros ev' Hin. apply Hleft. apply elem_of_cons. by right. }
  destruct (IH Hrest (step_track issue s tr ev)) as [He Hd].
  destruct (processed_for issue s ev) eqn:Hp.
  - pose proof (Hleft ev ltac:(apply elem_of_cons; by left) Hp) as Hkind.
    cbn zeta. rewrite He, Hd. clear He Hd IH.
    unfold processed_for in Hp. apply andb_prop in Hp as [Hname Hpast].
    unfold step_track. apply negb_true_iff in Hpast. rewrite Hpast, Hname, Hkind.
    cbn [entered duration map]. split; [done|].
    destruct (map _ (List.filter (processed_for issue s) evs)) as [|o os];
      cbn [default total fold_right]; f_equal; unfold id; lia.
  - cbn zeta. rewrite He, Hd.
    by rewrite (step_track_not_processed _ _ _ _ Hp).
Qed.

(** C3, as the code has it.  Let S be a status of the configured list of
    which no ENTERED event is processed.  When no LEFT event of S is
    processed either, get_status_metrics maps S to None.  When LEFT events
    of S are processed, S is not absent: the loop sets its duration to zero
    and adds the offset of each of them, so S is mapped to the sum of
    (timestamp - created_at) over the processed LEFT events of S. *)
Theorem never_entered_status
  (strptime : string -> option datetime) (issue : Issue)
  (statuses : list string) (now : nat -> datetime)
  (evs : list StatusEvent) (S : string) :
  S ∈ statuses ->
  (state issue = "closed" -> is_Some (closed_at issue)) ->
  get_status_events strptime issue statuses = inr evs ->
  (forall ev, ev ∈ evs -> processed_for issue S ev = true ->
              event ev = Unstatused) ->
  exists m,
    get_status_metrics strptime issue statuses now = inr m
    /\ m !! S = Some match offsets_of issue S evs with
                     | [] => None
                     | os => Some (total os)
                     end.
Proof.
  intros HS Hclosed Hevs Hleft.
  unfold get_status_metrics. rewrite Hevs. cbn [bind].
  destruct (accumulate_total issue statuses now evs) as [m Hm].
  { intros Heq. apply Hclosed. by apply String.eqb_eq. }
  exists m. split; [done|].
  destruct (fold_step_track_left_only issue S evs Hleft untouched)
    as [He Hd].
  rewrite (accumulate_unchanged _ _ _ _ _ _ HS Hm).
  - rewrite Hd. by destruct (offsets_of issue S evs).
  - intros t v. unfold finalize_entry. by rewrite He.
Qed.

Lemma never_entered_status_witness :
  (exists m,
     get_status_metrics Iso8601.strptime_utc
       (example_issue None "open"
          [status_change "2024-03-01T12:00:10Z" "In Progress" ""])
       ["In Progress"; "Done"] (fun _ => created_example + seconds 100)
     = inr m
     /\ m !! "Done" = Some None)
  /\ (exists m,
        get_status_metrics Iso8601.strptime_utc
          (example_issue (Some (created_example + seconds 200)) "closed"
             [status_change "2024-03-01T12:00:30Z" "In Progress" "Triage";
              status_change "2024-03-01T12:10:00Z" "Triage" "In Progress"])
          ["Triage"] (fun _ => 0)
        = inr m
        /\ m !! "Triage" = Some (Some (seconds 30))).
Proof.
  split.
  - apply (never_entered_status Iso8601.strptime_utc
             (example_issue None "open"
                [status_change "2024-03-01T12:00:10Z" "In Progress" ""])
             ["In Progress"; "Done"] (fun _ => created_example + seconds 100)
             [ {| createdAt := created_example + seconds 10;
                  event := Statused; statusName := "In Progress" |} ]
             "Done").
    + apply elem_of_cons. right. apply elem_of_cons. by left.
    + discriminate.
    + vm_compute. reflexivity.
    + intros ev Hin. apply list_elem_of_singleton in Hin. subst ev.
      discriminate.
  - apply (never_entered_status Iso8601.strptime_utc
             (example_issue (Some (created_example + seconds 200)) "closed"
                [status_change "2024-03-01T12:00:30Z" "In Progress" "Triage";
                 status_change "2024-03-01T12:10:00Z" "Triage" "In Progress"])
             ["Triage"] (fun _ => 0)
             [ {| createdAt := created_example + seconds 30;
                  event := Unstatused; statusName := "Triage" |};
               {| createdAt := created_example + seconds 600;
                  event := Statused; statusName := "Triage" |} ]
             "Triage").
    + apply elem_of_cons. by left.
    + intros _. by eexists.
    + vm_compute. reflexivity.
    + intros ev Hin Hp.
      repeat (apply elem_of_cons in Hin as [->|Hin]); try done.
      by apply elem_of_nil in Hin.
Defined.

(* An item whose timeline starts with the change from "Triage" to "Done",
   30 seconds after its creation: the only event of "Triage" is a LEFT
   event, and "Triage" is mapped to 30s, not to None. *)
Lemma left_only_status_is_present :
  get_status_events Iso8601.strptime_utc
    (example_issue None "open"
       [status_change "2024-03-01T12:00:30Z" "Done" "Triage"])
    ["Triage"]
  = inr [ {| createdAt := created_example + seconds 30;
             event := Unstatused; statusName := "Triage" |} ]
  /\ exists m,
       get_status_metrics Iso8601.strptime_utc
         (example_issue None "open"
            [status_change "2024-03-01T12:00:30Z" "Done" "Triage"])
         ["Triage"] (fun _ => created_example + seconds 100) = inr m
       /\ m !! "Triage" = Some (Some (seconds 30))
       /\ m !! "Triage" <> Some None.
Proof.
  split; [vm_compute; reflexivity|].
  eexists. split; [vm_compute; reflexivity|]. split.
  - vm_compute. reflexivity.
  - vm_compute. discriminate.
Qed.

(* --------------------------------------------------------------------- *)
(* Pages without a history                                                *)
(* --------------------------------------------------------------------- *)

(** C4, as the code has it.  get_status_events returns the empty sequence
    when the page has no script tag with the embedded data, and when the
    data json.loads returns is falsy (an empty object).  It does not catch
    exceptions: when json.loads raises on a malformed string, and when a
    lookup on the way to the edges raises because the nested structure is
    missing, get_status_events raises that exception; a non-empty object
    without the key "payload" gives a KeyError, and a truthy value that is
    not an object a TypeError. *)
Theorem events_of_page_without_history
  (strptime : string -> option datetime) (issue : Issue)
  (statuses : list string) :
  (html_content issue = NoScriptTag ->
   get_status_events strptime issue statuses = inr [])
  /\ (forall v,
        html_content issue = ScriptTag (inr v) ->
        truthy v = false ->
        get_status_events strptime issue statuses = inr [])
  /\ (forall e,
        html_content issue = ScriptTag (inl e) ->
        get_status_events strptime issue statuses = inl e)
  /\ (forall v e,
        html_content issue = ScriptTag (inr v) ->
        truthy v = true ->
        timeline_edges v = inl e ->
        get_status_events strptime issue statuses = inl e)
  /\ (forall fields,
        html_content issue = ScriptTag (inr (JObj fields)) ->
        fields <> [] ->
        assoc "payload" fields = None ->
        get_status_events strptime issue statuses = inl KeyError)
  /\ (forall v,
        html_content issue = ScriptTag (inr v) ->
        truthy v = true ->
        (forall fields, v <> JObj fields) ->
        get_status_events strptime issue statuses = inl TypeError).
Proof.
  unfold get_status_events. repeat split.
  - by intros ->.
  - intros v -> Hv. cbn [bind]. by rewrite Hv.
  - by intros e ->.
  - intros v e -> Hv He. cbn [bind]. by rewrite Hv, He.
  - intros fields -> Hne Hpayload. cbn [bind].
    destruct fields as [|field fields]; [done|]. cbn [truthy].
    unfold timeline_edges, getitem. by rewrite Hpayload.
  - intros v -> Hv Hobj. cbn [bind]. rewrite Hv.
    destruct v; try done. by destruct (Hobj fields).
Qed.

Lemma events_of_page_without_history_witness :
  get_status_events Iso8601.strptime_utc (page_issue NoScriptTag)
    ["In Progress"] = inr []
  /\ get_status_events Iso8601.strptime_utc
       (page_issue (ScriptTag (inr (JObj [])))) ["In Progress"] = inr []
  /\ get_status_events Iso8601.strptime_utc
       (page_issue (ScriptTag (inl JSONDecodeError))) ["In Progress"]
     = inl JSONDecodeError
  /\ get_status_events Iso8601.strptime_utc
       (page_issue (ScriptTag (inr (JObj [("payload", JObj [])]))))
       ["In Progress"]
     = inl KeyError
  /\ get_status_events Iso8601.strptime_utc
       (page_issue (ScriptTag (inr (JObj [("data", JNull)]))))
       ["In Progress"]
     = inl KeyError
  /\ get_status_events Iso8601.strptime_utc
       (page_issue (ScriptTag (inr (JArr [JNull])))) ["In Progress"]
     = inl TypeError.
Proof.
  split; [|split; [|split; [|split; [|split]]]].
  - by apply (events_of_page_without_history Iso8601.strptime_utc
                (page_issue NoScriptTag)).
  - destruct (events_of_page_without_history Iso8601.strptime_utc
                (page_issue (ScriptTag (inr (JObj [])))) ["In Progress"])
      as (_ & H & _).
    by apply (H (JObj [])).
  - destruct (events_of_page_without_history Iso8601.strptime_utc
                (page_issue (ScriptTag (inl JSONDecodeError)))
                ["In Progress"]) as (_ & _ & H & _).
    by apply H.
  - destruct (events_of_page_without_history Iso8601.strptime_utc
                (page_issue (ScriptTag (inr (JObj [("payload", JObj [])]))))
                ["In Progress"]) as (_ & _ & _ & H & _).
    by apply (H (JObj [("payload", JObj [])])).
  - destruct (events_of_page_without_history Iso8601.strptime_utc
                (page_issue (ScriptTag (inr (JObj [("data", JNull)]))))
                ["In Progress"]) as (_ & _ & _ & _ & H & _).
    by apply (H [("data", JNull)]).
  - destruct (events_of_page_without_history Iso8601.strptime_utc
                (page_issue (ScriptTag (inr (JArr [JNull]))))
                ["In Progress"]) as (_ & _ & _ & _ & _ & H).
    by apply (H (JArr [JNull])).
Defined.

(* A page whose embedded string is not JSON, and a page whose JSON lacks
   the nested structure: get_status_events raises, it does not return the
   empty sequence. *)
Lemma malformed_history_raises :
  get_status_events Iso8601.strptime_utc
    (page_issue (ScriptTag (inl JSONDecodeError))) ["In Progress"]
  = inl JSONDecodeError
  /\ get_status_events Iso8601.strptime_utc
       (page_issue (ScriptTag (inr (JObj [("payload", JObj [])]))))
       ["In Progress"]
     = inl KeyError
  /\ get_status_events Iso8601.strptime_utc
       (page_issue (ScriptTag (inl JSONDecodeError))) ["In Progress"]
     <> inr []
  /\ get_status_events Iso8601.strptime_utc
       (page_issue (ScriptTag (inr (JObj [("payload", JObj [])]))))
       ["In Progress"]
     <> inr [].
Proof. repeat split; discriminate. Qed.

(* --------------------------------------------------------------------- *)
(* The track of a status, in closed form                                  *)
(* --------------------------------------------------------------------- *)

(* only the processed events of a status move its track *)
Lemma fold_step_track_events_for (issue : Issue) (s : string)
  (evs : list StatusEvent) :
  forall tr,
    fold_left (step_track issue s) evs tr
    = fold_left (step_track issue s) (events_for issue s evs) tr.
Proof.
  unfold events_for. induction evs as [|ev evs IH]; intros tr; [done|].
  cbn [fold_left List.filter].
  destruct (processed_for issue s ev) eqn:Hp; cbn [fold_left].
  - apply IH.
  - rewrite (step_track_not_processed _ _ _ _ Hp). apply IH.
Qed.

Lemma events_for_processed (issue : Issue) (s : string)
  (evs : list StatusEvent) :
  Forall (fun ev => processed_for issue s ev = true) (events_for issue s evs).
Proof.
  unfold events_for. apply Forall_forall. intros ev Hin.
  apply list_elem_of_In in Hin. by apply filter_In in Hin as [_ Hp].
Qed.

Lemma step_track_processed (issue : Issue) (s : string) (tr : track)
  (ev : StatusEvent) :
  processed_for issue s ev = true ->
  step_track issue s tr ev
  = {| duration := Some (default 0 (duration tr) + signed_offset issue ev);
       last_event_type := Some (event ev);
       entered := entered tr || is_entered ev |}.
Proof.
  unfold processed_for, step_track, signed_offset, is_entered.
  intros [Hname Hpast]%andb_prop. apply negb_true_iff in Hpast.
  rewrite Hpast, Hname.
  destruct (event ev); f_equal; try (f_equal; lia).
  - by rewrite bool_decide_eq_true_2, orb_true_r.
  - by rewrite bool_decide_eq_false_2, orb_false_r.
Qed.

(* the duration is the sum of the signed offsets, the last event type is
   the type of the last event, and the status is a key of statused when
   one of the events is an ENTERED event *)
Lemma fold_step_track_closed_form (issue : Issue) (s : string)
  (l : list StatusEvent) :
  Forall (fun ev => processed_for issue s ev = true) l ->
  forall tr,
    fold_left (step_track issue s) l tr
    = {| duration :=
           match l with
           | [] => duration tr
           | _ => Some (default 0 (duration tr) + net_offset issue l)
           end;
         last_event_type :=
           match last l with
           | Some ev => Some (event ev)
           | None => last_event_type tr
           end;
         entered := entered tr || existsb is_entered l |}.
Proof.
  induction l as [|ev l IH]; intros Hall tr.
  - destruct tr; simpl. by rewrite orb_false_r.
  - apply Forall_cons in Hall as [Hev Hall]. cbn [fold_left].
    rewrite (IH Hall), (step_track_processed _ _ _ _ Hev).
    cbn [duration last_event_type entered existsb]. f_equal.
    + unfold net_offset. cbn [map total fold_right default].
      destruct l as [|ev' l']; cbn [map total fold_right];
        f_equal; unfold id; lia.
    + rewrite last_cons. by destruct (last l).
    + by rewrite orb_assoc.
Qed.

Lemma track_closed_form (issue : Issue) (s : string)
  (evs : list StatusEvent) :
  fold_left (step_track issue s) evs untouched
  = {| duration :=
         match events_for issue s evs with
         | [] => None
         | l => Some (net_offset issue l)
         end;
       last_event_type := event <$> last (events_for issue s evs);
       entered := existsb is_entered (events_for issue s evs) |}.
Proof.
  rewrite fold_step_track_events_for.
  rewrite (fold_step_track_closed_form _ _ _ (events_for_processed _ _ _)).
  unfold untouched; cbn [duration last_event_type entered orb default].
  by destruct (events_for issue s evs).
Qed.

(* --------------------------------------------------------------------- *)
(* Closed issues, in closed form                                          *)
(* --------------------------------------------------------------------- *)

Lemma occurrences_cons (s x : string) (l : list string) :
  occurrences s (x :: l)
  = (if String.eqb s x then 1 else 0) + occurrences s l.
Proof.
  unfold occurrences. cbn [List.filter].
  destruct (String.eqb s x); cbn [length]; lia.
Qed.

(* on a closed issue, each iteration of the second loop for an entered
   status adds closed_at - created_at to its duration *)
Lemma finalize_closed_occurrences (issue : Issue) (now : nat -> datetime)
  (st : tally) (s : string) (closed : datetime) (l : list string) :
  String.eqb (state issue) "closed" = true ->
  closed_at issue = Some closed ->
  entered (track_of st s) = true ->
  forall i m m' a,
    for_each_i (finalize_status issue now st) i l m = inr m' ->
    m !! s = Some (Some a) ->
    m' !! s
    = Some (Some (a + occurrences s l * (closed - created_at issue))).
Proof.
  intros Hstate Hclosed He.
  induction l as [|x l IH]; intros i m m' a Hrun Hm; simpl in Hrun.
  - inversion Hrun; subst m'. rewrite Hm. do 2 f_equal.
    unfold occurrences. simpl. lia.
  - destruct (finalize_status issue now st i m x) as [e|m1] eqn:Hx;
      simpl in Hrun; [done|].
    rewrite occurrences_cons. destruct (String.eqb_spec s x) as [<-|Hne].
    + rewrite (finalize_status_entry _ _ _ _ _ _ _ Hm) in Hx.
      unfold finalize_entry in Hx. rewrite He, Hstate, Hclosed in Hx.
      simpl in Hx. inversion Hx; subst m1.
      rewrite (IH _ _ _ (a + (closed - created_at issue)) Hrun)
        by apply lookup_insert_eq.
      do 2 f_equal. lia.
    + rewrite (IH _ _ _ a Hrun); [do 2 f_equal; lia|].
      rewrite <- Hm.
      assert (s ∉ [x]) as Hsx.
      { rewrite elem_of_cons, elem_of_nil. naive_solver. }
      apply (finalize_unchanged issue now st s [x] (or_introl Hsx) i m m1).
      simpl. by rewrite Hx.
Qed.

(* the entry of a status of the list in the result, on a closed issue *)
Lemma accumulate_closed_lookup (issue : Issue) (statuses : list string)
  (now : nat -> datetime) (evs : list StatusEvent) (closed : datetime)
  m (s : string) :
  state issue = "closed" ->
  closed_at issue = Some closed ->
  s ∈ statuses ->
  accumulate issue statuses now evs = inr m ->
  m !! s
  = Some match events_for issue s evs with
         | [] => None
         | l =>
             Some (net_offset issue l
                   + (if existsb is_entered l
                      then occurrences s statuses
                           * (closed - created_at issue)
                      else 0))
         end.
Proof.
  intros Hstate Hclosed Hs Hm.
  destruct (accumulate_run issue statuses now evs)
    as (st & _ & [Hk _] & Htr & Hacc).
  rewrite Hacc in Hm. clear Hacc.
  pose proof (Htr s Hs) as Hts. rewrite track_closed_form in Hts.
  destruct (proj1 (Hk s) Hs) as [v Hv].
  assert (v = duration (track_of st s)) as Hdur
    by (unfold track_of; simpl; by rewrite Hv).
  assert (String.eqb (state issue) "closed" = true) as Heqb
    by (by rewrite Hstate).
  destruct (existsb is_entered (events_for issue s evs)) eqn:He.
  - destruct (events_for issue s evs) as [|ev l] eqn:Hl; [done|].
    rewrite Hts in Hdur; simpl in Hdur. subst v.
    assert (entered (track_of st s) = true) as Hent by (by rewrite Hts).
    cbn zeta. rewrite He.
    apply (finalize_closed_occurrences issue now st s closed statuses
             Heqb Hclosed Hent _ _ _ _ Hm Hv).
  - assert (forall t w, finalize_entry issue t (track_of st s) w = ret w)
      as Hid.
    { intros t w. unfold finalize_entry. by rewrite Hts. }
    rewrite (finalize_unchanged issue now st s statuses (or_intror Hid)
               _ _ _ Hm).
    rewrite Hv, Hdur, Hts. cbn [duration].
    destruct (events_for issue s evs) as [|ev l]; [done|].
    cbn zeta. rewrite He. do 2 f_equal. lia.
Qed.

(** X1. On a closed issue with its closed_at, get_status_metrics returns,
    and the entry of a status S of the list is known in closed form.  With
    no processed event of S, it is None.  Otherwise it is the sum of the
    signed offsets of the processed events of S (minus the offset of an
    ENTERED event, plus the offset of a LEFT event), to which, when one of
    them is an ENTERED event, closed_at - created_at is added once for each
    time S is in the list of the statuses. *)
Theorem closed_issue_duration
  (strptime : string -> option datetime) (issue : Issue)
  (statuses : list string) (now : nat -> datetime)
  (evs : list StatusEvent) (closed : datetime) (S : string) :
  state issue = "closed" ->
  closed_at issue = Some closed ->
  S ∈ statuses ->
  get_status_events strptime issue statuses = inr evs ->
  exists m,
    get_status_metrics strptime issue statuses now = inr m
    /\ m !! S
       = Some match events_for issue S evs with
              | [] => None
              | l =>
                  Some (net_offset issue l
                        + (if existsb is_entered l
                           then occurrences S statuses
                                * (closed - created_at issue)
                           else 0))
              end.
Proof.
  intros Hstate Hclosed HS Hevs.
  unfold get_status_metrics. rewrite Hevs. cbn [bind].
  destruct (accumulate_total issue statuses now evs
              (closed_is_Some _ _ Hclosed)) as [m Hm].
  exists m. split; [done|].
  by apply (accumulate_closed_lookup _ _ _ _ _ _ _ Hstate Hclosed HS Hm).
Qed.

(* the list names "In Progress" twice: the 50 seconds from creation to
   closure are added twice to the -10 seconds of the ENTERED event *)
Lemma closed_issue_duration_witness :
  exists m,
    get_status_metrics Iso8601.strptime_utc
      (example_issue (Some (created_example + seconds 50)) "closed"
         [status_change "2024-03-01T12:00:10Z" "In Progress" ""])
      ["In Progress"; "Done"; "In Progress"] (fun _ => 0) = inr m
    /\ m !! "In Progress" = Some (Some (seconds 90)).
Proof.
  apply (closed_issue_duration Iso8601.strptime_utc
           (example_issue (Some (created_example + seconds 50)) "closed"
              [status_change "2024-03-01T12:00:10Z" "In Progress" ""])
           ["In Progress"; "Done"; "In Progress"] (fun _ => 0)
           [ {| createdAt := created_example + seconds 10;
                event := Statused; statusName := "In Progress" |} ]
           (created_example + seconds 50) "In Progress").
  - reflexivity.
  - reflexivity.
  - apply elem_of_cons. by left.
  - vm_compute. reflexivity.
Defined.

(* --------------------------------------------------------------------- *)
(* The order of the events                                                *)
(* --------------------------------------------------------------------- *)

Lemma events_for_Permutation (issue : Issue) (s : string)
  (evs evs' : list StatusEvent) :
  Permutation evs evs' ->
  Permutation (events_for issue s evs) (events_for issue s evs').
Proof.
  unfold events_for. induction 1 as [|x l l' _ IH|x y l|l l' l'' _ IH1 _ IH2];
    cbn [List.filter].
  - done.
  - destruct (processed_for issue s x); [by constructor|done].
  - destruct (processed_for issue s x), (processed_for issue s y);
      try done. apply perm_swap.
  - by etrans.
Qed.

Lemma net_offset_Permutation (issue : Issue) (l l' : list StatusEvent) :
  Permutation l l' -> net_offset issue l = net_offset issue l'.
Proof.
  unfold net_offset, total.
  induction 1 as [|x l l' _ IH|x y l|l l' l'' _ IH1 _ IH2];
    cbn [map fold_right]; lia.
Qed.

Lemma existsb_Permutation {A} (f : A -> bool) (l l' : list A) :
  Permutation l l' -> existsb f l = existsb f l'.
Proof.
  induction 1 as [|x l l' _ IH|x y l|l l' l'' _ IH1 _ IH2];
    cbn [existsb].
  - done.
  - by rewrite IH.
  - by destruct (f x), (f y).
  - congruence.
Qed.

(** X2. On a closed issue the order of the events does not matter: two
    items with the same dates and state whose events are the same up to
    their order get the same result from get_status_metrics. *)
Theorem closed_issue_any_order
  (strptime : string -> option datetime) (issue issue' : Issue)
  (statuses : list string) (now now' : nat -> datetime)
  (evs evs' : list StatusEvent) (closed : datetime) :
  state issue = "closed" ->
  closed_at issue = Some closed ->
  created_at issue' = created_at issue ->
  closed_at issue' = closed_at issue ->
  state issue' = state issue ->
  get_status_events strptime issue statuses = inr evs ->
  get_status_events strptime issue' statuses = inr evs' ->
  Permutation evs evs' ->
  exists m,
    get_status_metrics strptime issue statuses now = inr m
    /\ get_status_metrics strptime issue' statuses now' = inr m.
Proof.
  intros Hstate Hclosed Hcr Hcl Hst Hevs Hevs' Hperm.
  unfold get_status_metrics. rewrite Hevs, Hevs'. cbn [bind].
  rewrite (accumulate_same_issue issue issue') by done.
  destruct (accumulate_total issue statuses now evs
              (closed_is_Some _ _ Hclosed)) as [m Hm].
  destruct (accumulate_total issue statuses now' evs'
              (closed_is_Some _ _ Hclosed)) as [m' Hm'].
  exists m. split; [done|]. rewrite Hm'. f_equal.
  apply map_eq. intros s. destruct (decide (s ∈ statuses)) as [Hs|Hs].
  - rewrite (accumulate_closed_lookup _ _ _ _ _ _ _ Hstate Hclosed Hs Hm).
    rewrite (accumulate_closed_lookup _ _ _ _ _ _ _ Hstate Hclosed Hs Hm').
    pose proof (events_for_Permutation issue s _ _ Hperm) as Hp.
    destruct (events_for issue s evs) as [|ev l],
             (events_for issue s evs') as [|ev' l']; try done.
    + by apply Permutation_nil_cons in Hp.
    + symmetry in Hp. by apply Permutation_nil_cons in Hp.
    + cbn zeta. by rewrite (net_offset_Permutation _ _ _ Hp),
                           (existsb_Permutation _ _ _ Hp).
  - pose proof (accumulate_keyed _ _ _ _ _ Hm s) as Hk.
    pose proof (accumulate_keyed _ _ _ _ _ Hm' s) as Hk'.
    destruct (m !! s) as [v|]; [destruct Hs; apply Hk; eauto|].
    destruct (m' !! s) as [v|]; [destruct Hs; apply Hk'; eauto|done].
Qed.

Lemma closed_issue_any_order_witness :
  exists m,
    get_status_metrics Iso8601.strptime_utc
      (example_issue (Some (created_example + seconds 200)) "closed"
         [status_change "2024-03-01T12:00:10Z" "In Progress" "";
          status_change "2024-03-01T12:01:10Z" "Done" "In Progress"])
      ["In Progress"; "Done"] (fun _ => 0) = inr m
    /\ get_status_metrics Iso8601.strptime_utc
         (example_issue (Some (created_example + seconds 200)) "closed"
            [status_change "2024-03-01T12:01:10Z" "Done" "In Progress";
             status_change "2024-03-01T12:00:10Z" "In Progress" ""])
         ["In Progress"; "Done"] (fun _ => 7) = inr m.
Proof.
  apply (closed_issue_any_order Iso8601.strptime_utc _ _ _ _ _
           [ {| createdAt := created_example + seconds 10; event := Statused;
                statusName := "In Progress" |};
             {| createdAt := created_example + seconds 70; event := Statused;
                statusName := "Done" |};
             {| createdAt := created_example + seconds 70;
                event := Unstatused; statusName := "In Progress" |} ]
           [ {| createdAt := created_example + seconds 70; event := Statused;
                statusName := "Done" |};
             {| createdAt := created_example + seconds 70;
                event := Unstatused; statusName := "In Progress" |};
             {| createdAt := created_example + seconds 10; event := Statused;
                statusName := "In Progress" |} ]
           (created_example + seconds 200)).
  - reflexivity.
  - reflexivity.
  - reflexivity.
  - reflexivity.
  - reflexivity.
  - vm_compute. reflexivity.
  - vm_compute. reflexivity.
  - apply (Permutation_app_comm
             [ {| createdAt := created_example + seconds 10;
                  event := Statused; statusName := "In Progress" |} ]).
Defined.

(* --------------------------------------------------------------------- *)
(* Open issues: the intervals of a status                                 *)
(* --------------------------------------------------------------------- *)

Lemma net_offset_app (issue : Issue) (l1 l2 : list StatusEvent) :
  net_offset issue (l1 ++ l2) = net_offset issue l1 + net_offset issue l2.
Proof.
  unfold net_offset, total. induction l1 as [|ev l1 IH]; simpl; lia.
Qed.

(* the offsets from created_at cancel: what is left is the length of the
   intervals *)
Lemma net_offset_intervals (issue : Issue) (s : string)
  (intervals : list (datetime * datetime)) :
  net_offset issue (interval_events s intervals) = total_length intervals.
Proof.
  unfold net_offset, total_length, total, interval_events, signed_offset.
  induction intervals as [|[a b] rest IH]; simpl in *; lia.
Qed.

Lemma last_interval_events (s : string)
  (intervals : list (datetime * datetime)) :
  event <$> last (interval_events s intervals)
  = match intervals with [] => None | _ => Some Unstatused end.
Proof.
  induction intervals as [|[a b] rest IH]; [done|].
  unfold interval_events in *. cbn [flat_map app fst snd].
  rewrite !last_cons. destruct rest as [|ab rest]; [done|].
  destruct (last (flat_map _ (ab :: rest))); [|done].
  simpl in IH. by rewrite <- IH.
Qed.

Lemma open_is_not_closed (issue : Issue) :
  state issue <> "closed" ->
  String.eqb (state issue) "closed" = true -> is_Some (closed_at issue).
Proof. intros Hne Heq. by apply String.eqb_eq in Heq. Qed.

(** X3. On an open issue, a status S of the list whose processed events
    are the ENTERED and LEFT events of closed intervals [a1, b1], ...,
    [an, bn], in this order, is mapped to the total length of the
    intervals, (b1 - a1) + ... + (bn - an): the offsets from created_at
    cancel, and nothing is added for the time up to now.  With no interval,
    S is mapped to None. *)
Theorem open_issue_closed_intervals
  (strptime : string -> option datetime) (issue : Issue)
  (statuses : list string) (now : nat -> datetime)
  (evs : list StatusEvent) (S : string)
  (intervals : list (datetime * datetime)) :
  state issue <> "closed" ->
  S ∈ statuses ->
  get_status_events strptime issue statuses = inr evs ->
  events_for issue S evs = interval_events S intervals ->
  exists m,
    get_status_metrics strptime issue statuses now = inr m
    /\ m !! S = Some match intervals with
                     | [] => None
                     | _ => Some (total_length intervals)
                     end.
Proof.
  intros Hstate HS Hevs Hint.
  unfold get_status_metrics. rewrite Hevs. cbn [bind].
  destruct (accumulate_total issue statuses now evs
              (open_is_not_closed _ Hstate)) as [m Hm].
  exists m. split; [done|].
  apply String.eqb_neq in Hstate.
  rewrite (accumulate_unchanged _ _ _ _ _ _ HS Hm).
  - rewrite track_closed_form, Hint. cbn [duration]. f_equal.
    rewrite <- (net_offset_intervals issue S).
    by destruct intervals as [|[a b] rest].
  - intros t v. rewrite track_closed_form, Hint.
    unfold finalize_entry. cbn [entered last_event_type].
    rewrite Hstate, last_interval_events.
    destruct intervals as [|[a b] rest]; [done|].
    by destruct (existsb _ _).
Qed.

Lemma open_issue_closed_intervals_witness :
  exists m,
    get_status_metrics Iso8601.strptime_utc
      (example_issue None "open"
         [status_change "2024-03-01T12:00:10Z" "In Progress" "";
          status_change "2024-03-01T12:01:10Z" "Review" "In Progress";
          status_change "2024-03-01T12:02:00Z" "In Progress" "Review";
          status_change "2024-03-01T12:02:30Z" "Done" "In Progress"])
      ["In Progress"; "Done"] (fun _ => created_example + seconds 1000)
    = inr m
    /\ m !! "In Progress" = Some (Some (seconds 90)).
Proof.
  apply (open_issue_closed_intervals Iso8601.strptime_utc
           (example_issue None "open"
              [status_change "2024-03-01T12:00:10Z" "In Progress" "";
               status_change "2024-03-01T12:01:10Z" "Review" "In Progress";
               status_change "2024-03-01T12:02:00Z" "In Progress" "Review";
               status_change "2024-03-01T12:02:30Z" "Done" "In Progress"])
           ["In Progress"; "Done"]
           (fun _ => created_example + seconds 1000)
           [ {| createdAt := created_example + seconds 10; event := Statused;
                statusName := "In Progress" |};
             {| createdAt := created_example + seconds 70;
                event := Unstatused; statusName := "In Progress" |};
             {| createdAt := created_example + seconds 120;
                event := Statused; statusName := "In Progress" |};
             {| createdAt := created_example + seconds 150; event := Statused;
                statusName := "Done" |};
             {| createdAt := created_example + seconds 150;
                event := Unstatused; statusName := "In Progress" |} ]
           "In Progress"
           [ (created_example + seconds 10, created_example + seconds 70);
             (created_example + seconds 120, created_example + seconds 150) ]).
  - discriminate.
  - apply elem_of_cons. by left.
  - vm_compute. reflexivity.
  - vm_compute. reflexivity.
Defined.

(** X4. On an open issue and a list of statuses without duplicate, a
    status S whose processed events are those of closed intervals followed
    by one more ENTERED event at the instant a is mapped to the total
    length of the intervals plus now - a, where now is what the clock reads
    in the iteration of S. *)
Theorem open_issue_active_status
  (strptime : string -> option datetime) (issue : Issue)
  (statuses : list string) (now : nat -> datetime)
  (evs : list StatusEvent) (S : string) (j : nat)
  (intervals : list (datetime * datetime)) (a : datetime) :
  state issue <> "closed" ->
  NoDup statuses ->
  statuses !! j = Some S ->
  get_status_events strptime issue statuses = inr evs ->
  events_for issue S evs
  = interval_events S intervals
    ++ [ {| createdAt := a; event := Statused; statusName := S |} ] ->
  exists m,
    get_status_metrics strptime issue statuses now = inr m
    /\ m !! S = Some (Some (total_length intervals + (now j - a))).
Proof.
  intros Hstate Hnd Hj Hevs Hint.
  unfold get_status_metrics. rewrite Hevs. cbn [bind].
  destruct (accumulate_total issue statuses now evs
              (open_is_not_closed _ Hstate)) as [m Hm].
  exists m. split; [done|].
  apply String.eqb_neq in Hstate.
  destruct (accumulate_at _ _ _ _ _ _ _ Hnd Hj Hm) as (v & Hv & ->).
  rewrite track_closed_form, Hint in Hv.
  unfold finalize_entry in Hv. cbn [entered last_event_type duration] in Hv.
  rewrite existsb_app, last_snoc, Hstate in Hv.
  cbn [existsb event fmap option_fmap option_map] in Hv.
  change (is_entered {| createdAt := a; event := Statused; statusName := S |})
    with true in Hv.
  rewrite orb_true_r in Hv.
  destruct (interval_events S intervals ++ _) as [|ev l] eqn:Hl.
  { by apply app_eq_nil in Hl as [_ ?]. }
  rewrite <- Hl, net_offset_app, net_offset_intervals in Hv.
  inversion Hv. do 2 f_equal.
  unfold net_offset, total, signed_offset. simpl. lia.
Qed.

Lemma open_issue_active_status_witness :
  exists m,
    get_status_metrics Iso8601.strptime_utc
      (example_issue None "open"
         [status_change "2024-03-01T12:00:10Z" "In Progress" "";
          status_change "2024-03-01T12:01:10Z" "Review" "In Progress";
          status_change "2024-03-01T12:02:00Z" "In Progress" "Review"])
      ["Done"; "In Progress"] (fun i => created_example + seconds 1000)
    = inr m
    /\ m !! "In Progress" = Some (Some (seconds 940)).
Proof.
  apply (open_issue_active_status Iso8601.strptime_utc
           (example_issue None "open"
              [status_change "2024-03-01T12:00:10Z" "In Progress" "";
               status_change "2024-03-01T12:01:10Z" "Review" "In Progress";
               status_change "2024-03-01T12:02:00Z" "In Progress" "Review"])
           ["Done"; "In Progress"]
           (fun i => created_example + seconds 1000)
           [ {| createdAt := created_example + seconds 10; event := Statused;
                statusName := "In Progress" |};
             {| createdAt := created_example + seconds 70;
                event := Unstatused; statusName := "In Progress" |};
             {| createdAt := created_example + seconds 120;
                event := Statused; statusName := "In Progress" |} ]
           "In Progress" 1%nat
           [ (created_example + seconds 10, created_example + seconds 70) ]
           (created_example + seconds 120)).
  - discriminate.
  - solve_NoDup.
  - reflexivity.
  - vm_compute. reflexivity.
  - vm_compute. reflexivity.
Defined.

(* --------------------------------------------------------------------- *)
(* A closed issue without closed_at                                       *)
(* --------------------------------------------------------------------- *)

Lemma finalize_none_entered (issue : Issue) (now : nat -> datetime)
  (st : tally) (l : list string) :
  (forall s, s ∈ l -> s ∉ statused st) ->
  forall i m, for_each_i (finalize_status issue now st) i l m = inr m.
Proof.
  induction l as [|x l IH]; intros Hno i m; simpl; [done|].
  unfold finalize_status at 1.
  rewrite bool_decide_eq_false_2
    by (apply Hno, elem_of_cons; by left).
  simpl. apply IH. intros s Hs. apply Hno, elem_of_cons. by right.
Qed.

Lemma finalize_closed_without_date (issue : Issue) (now : nat -> datetime)
  (st : tally) (l : list string) :
  String.eqb (state issue) "closed" = true ->
  closed_at issue = None ->
  forall i m,
    (forall s, s ∈ l -> is_Some (m !! s)) ->
    (exists s, s ∈ l /\ s ∈ statused st) ->
    for_each_i (finalize_status issue now st) i l m = inl TypeError.
Proof.
  intros Hstate Hclosed.
  induction l as [|x l IH]; intros i m Hkeys (s & Hs & Hin).
  - by apply elem_of_nil in Hs.
  - simpl. unfold finalize_status at 1. rewrite Hstate, Hclosed.
    case_bool_decide as Hx.
    + unfold iadd.
      by destruct (Hkeys x ltac:(apply elem_of_cons; by left)) as [v ->].
    + simpl. apply IH.
      * intros s' Hs'. apply Hkeys, elem_of_cons. by right.
      * exists s. split; [|done].
        apply elem_of_cons in Hs as [->|Hs]; done.
Qed.

(** X5. On an issue whose state is "closed" and whose closed_at is None,
    get_status_metrics raises a TypeError as soon as one event is an
    ENTERED event, and returns when all events are LEFT events. *)
Theorem closed_issue_without_closed_at
  (strptime : string -> option datetime) (issue : Issue)
  (statuses : list string) (now : nat -> datetime)
  (evs : list StatusEvent) :
  state issue = "closed" ->
  closed_at issue = None ->
  get_status_events strptime issue statuses = inr evs ->
  ((exists ev, ev ∈ evs /\ event ev = Statused) ->
   get_status_metrics strptime issue statuses now = inl TypeError)
  /\ ((forall ev, ev ∈ evs -> event ev = Unstatused) ->
      exists m, get_status_metrics strptime issue statuses now = inr m).
Proof.
  intros Hstate Hclosed Hevs.
  pose proof (get_status_events_of_interest _ _ _ _ Hevs) as Hnames.
  unfold get_status_metrics. rewrite Hevs. cbn [bind].
  destruct (accumulate_run issue statuses now evs)
    as (st & _ & [Hk _] & Htr & ->).
  assert (forall s, s ∈ statuses ->
            bool_decide (s ∈ statused st)
            = existsb is_entered (events_for issue s evs)) as Hent.
  { intros s Hs. pose proof (Htr s Hs) as Hts.
    rewrite track_closed_form in Hts.
    by apply (f_equal entered) in Hts. }
  split.
  - intros (ev & Hin & Hkind).
    apply finalize_closed_without_date;
      [by rewrite Hstate|done|intros s Hs; by apply Hk|].
    rewrite Forall_forall in Hnames. pose proof (Hnames ev Hin) as Hname.
    exists (statusName ev). split; [done|].
    apply (bool_decide_eq_true_1 (statusName ev ∈ statused st)).
    rewrite (Hent _ Hname).
    apply existsb_exists. exists ev. split.
    + unfold events_for. apply filter_In. split; [by apply list_elem_of_In|].
      unfold processed_for. rewrite (past_close_open _ _ Hclosed).
      by rewrite bool_decide_eq_true_2.
    + unfold is_entered. by rewrite Hkind.
  - intros Hleft. eexists. apply finalize_none_entered.
    intros s Hs Hin.
    apply (bool_decide_eq_true_2 (s ∈ statused st)) in Hin.
    rewrite (Hent s Hs) in Hin.
    apply existsb_exists in Hin as (ev & Hev & Hkind).
    unfold events_for in Hev. apply filter_In in Hev as [Hev _].
    apply list_elem_of_In in Hev. unfold is_entered in Hkind.
    rewrite (Hleft ev Hev) in Hkind. done.
Qed.

Lemma closed_issue_without_closed_at_witness :
  get_status_metrics Iso8601.strptime_utc
    (example_issue None "closed"
       [status_change "2024-03-01T12:00:10Z" "In Progress" ""])
    ["In Progress"] (fun _ => 0) = inl TypeError
  /\ exists m,
       get_status_metrics Iso8601.strptime_utc
         (example_issue None "closed"
            [status_change "2024-03-01T12:00:10Z" "Done" "In Progress"])
         ["In Progress"] (fun _ => 0) = inr m.
Proof.
  split.
  - apply (closed_issue_without_closed_at Iso8601.strptime_utc
             (example_issue None "closed"
                [status_change "2024-03-01T12:00:10Z" "In Progress" ""])
             ["In Progress"] (fun _ => 0)
             [ {| createdAt := created_example + seconds 10;
                  event := Statused; statusName := "In Progress" |} ]).
    + reflexivity.
    + reflexivity.
    + vm_compute. reflexivity.
    + eexists. split; [apply list_elem_of_singleton; reflexivity|done].
  - apply (closed_issue_without_closed_at Iso8601.strptime_utc
             (example_issue None "closed"
                [status_change "2024-03-01T12:00:10Z" "Done" "In Progress"])
             ["In Progress"] (fun _ => 0)
             [ {| createdAt := created_example + seconds 10;
                  event := Unstatused; statusName := "In Progress" |} ]).
    + reflexivity.
    + reflexivity.
    + vm_compute. reflexivity.
    + intros ev Hin. apply list_elem_of_singleton in Hin. by subst ev.
Defined.

(* --------------------------------------------------------------------- *)
(* Items without a processed event                                        *)
(* --------------------------------------------------------------------- *)

Lemma events_for_all_skipped (issue : Issue) (s : string)
  (evs : list StatusEvent) :
  (forall ev, ev ∈ evs -> past_close issue ev = true) ->
  events_for issue s evs = [].
Proof.
  unfold events_for. induction evs as [|ev evs IH]; intros Hskip; [done|].
  cbn [List.filter]. unfold processed_for at 1.
  rewrite (Hskip ev) by (apply elem_of_cons; by left).
  rewrite andb_false_r. apply IH. intros ev' Hin.
  apply Hskip, elem_of_cons. by right.
Qed.

(** X6. When the item has no event, or only events that the loop skips
    (later than closed_at + 5 minutes), get_status_metrics returns the dict
    that maps every status of the list to None and has no other key; it
    raises nothing, whatever the state and the closed_at of the issue. *)
Theorem no_processed_event_all_absent
  (strptime : string -> option datetime) (issue : Issue)
  (statuses : list string) (now : nat -> datetime)
  (evs : list StatusEvent) :
  get_status_events strptime issue statuses = inr evs ->
  (forall ev, ev ∈ evs -> past_close issue ev = true) ->
  exists m,
    get_status_metrics strptime issue statuses now = inr m
    /\ forall s, m !! s = if bool_decide (s ∈ statuses)
                          then Some None else None.
Proof.
  intros Hevs Hskip.
  unfold get_status_metrics. rewrite Hevs. cbn [bind].
  destruct (accumulate_run issue statuses now evs)
    as (st & _ & [Hk _] & Htr & ->).
  assert (forall s, s ∈ statuses -> track_of st s = untouched) as Hun.
  { intros s Hs. rewrite (Htr s Hs), track_closed_form.
    by rewrite (events_for_all_skipped _ _ _ Hskip). }
  exists (status_metrics st). split.
  - apply finalize_none_entered. intros s Hs Hin.
    pose proof (f_equal entered (Hun s Hs)) as He. simpl in He.
    by apply (bool_decide_eq_false_1 (s ∈ statused st)) in He.
  - intros s. case_bool_decide as Hs.
    + pose proof (f_equal duration (Hun s Hs)) as Hd. simpl in Hd.
      destruct (proj1 (Hk s) Hs) as [v Hv]. rewrite Hv in Hd |- *.
      simpl in Hd. by subst v.
    + destruct (status_metrics st !! s) as [v|] eqn:Hv; [|done].
      destruct Hs. apply Hk. eauto.
Qed.

Lemma no_processed_event_all_absent_witness :
  exists m,
    get_status_metrics Iso8601.strptime_utc
      (example_issue (Some (created_example + seconds 50)) "closed"
         [status_change "2024-03-01T12:10:00Z" "Done" "In Progress"])
      ["In Progress"; "Done"] (fun _ => 0) = inr m
    /\ forall s, m !! s = if bool_decide (s ∈ ["In Progress"; "Done"])
                          then Some None else None.
Proof.
  apply (no_processed_event_all_absent Iso8601.strptime_utc
           (example_issue (Some (created_example + seconds 50)) "closed"
              [status_change "2024-03-01T12:10:00Z" "Done" "In Progress"])
           ["In Progress"; "Done"] (fun _ => 0)
           [ {| createdAt := created_example + seconds 600;
                event := Statused; statusName := "Done" |};
             {| createdAt := created_example + seconds 600;
                event := Unstatused; statusName := "In Progress" |} ]).
  - vm_compute. reflexivity.
  - intros ev Hin.
    repeat (apply elem_of_cons in Hin as [->|Hin]); try reflexivity.
    by apply elem_of_nil in Hin.
Defined.

(* --------------------------------------------------------------------- *)
(* The statuses do not interfere                                          *)
(* --------------------------------------------------------------------- *)

(* the entry of a status after the second loop is determined by its entry
   before the loop and by its track *)
Lemma finalize_lookup_determined (issue : Issue) (now : nat -> datetime)
  (st1 st2 : tally) (s : string) (l : list string) :
  track_of st1 s = track_of st2 s ->
  forall i m1 m2 m1' m2',
    m1 !! s = m2 !! s ->
    for_each_i (finalize_status issue now st1) i l m1 = inr m1' ->
    for_each_i (finalize_status issue now st2) i l m2 = inr m2' ->
    m1' !! s = m2' !! s.
Proof.
  intros Htr. induction l as [|x l IH]; intros i m1 m2 m1' m2' Hm; simpl.
  - by intros [= <-] [= <-].
  - destruct (finalize_status issue now st1 i m1 x) as [e|m1a] eqn:H1;
      simpl; [done|].
    destruct (finalize_status issue now st2 i m2 x) as [e|m2a] eqn:H2;
      simpl; [done|].
    apply IH. destruct (decide (x = s)) as [->|Hne].
    + destruct (m1 !! s) as [v|] eqn:Hv.
      * symmetry in Hm.
        rewrite (finalize_status_entry _ _ _ _ _ _ _ Hv) in H1.
        rewrite (finalize_status_entry _ _ _ _ _ _ _ Hm) in H2.
        rewrite Htr in H1.
        destruct (finalize_entry issue (now i) (track_of st2 s) v);
          simpl in H1, H2; [done|].
        inversion H1. inversion H2. by rewrite !lookup_insert_eq.
      * symmetry in Hm. unfold finalize_status, iadd in H1, H2.
        rewrite Hv in H1. rewrite Hm in H2.
        pose proof (f_equal entered Htr) as He.
        pose proof (f_equal last_event_type Htr) as Hl.
        unfold track_of in He, Hl; simpl in He, Hl.
        rewrite He, Hl in H1.
        destruct (bool_decide (s ∈ statused st2));
          [|inversion H1; inversion H2; subst; by rewrite Hv, Hm].
        destruct (String.eqb (state issue) "closed"); [done|].
        destruct (status_last_event_type st2 !! s) as [[]|]; try done.
        inversion H1; inversion H2; subst; by rewrite Hv, Hm.
    + assert (s ∉ [x]) as Hsx.
      { rewrite elem_of_cons, elem_of_nil. naive_solver. }
      rewrite (finalize_unchanged issue now st1 s [x] (or_introl Hsx) i m1 m1a)
        by (simpl; by rewrite H1).
      rewrite (finalize_unchanged issue now st2 s [x] (or_introl Hsx) i m2 m2a)
        by (simpl; by rewrite H2).
      done.
Qed.

(** X7. The entry of a status depends on the events of that status only:
    two items with the same dates and state and the same processed events
    of S, whatever their events of the other statuses, get the same entry
    for S from get_status_metrics, for the same list of statuses and the
    same clock. *)
Theorem other_statuses_do_not_interfere
  (strptime : string -> option datetime) (issue issue' : Issue)
  (statuses : list string) (now : nat -> datetime)
  (evs evs' : list StatusEvent) (S : string) m m' :
  created_at issue' = created_at issue ->
  closed_at issue' = closed_at issue ->
  state issue' = state issue ->
  get_status_events strptime issue statuses = inr evs ->
  get_status_events strptime issue' statuses = inr evs' ->
  events_for issue S evs = events_for issue S evs' ->
  get_status_metrics strptime issue statuses now = inr m ->
  get_status_metrics strptime issue' statuses now = inr m' ->
  m !! S = m' !! S.
Proof.
  intros Hcr Hcl Hst Hevs Hevs' Hsame.
  unfold get_status_metrics. rewrite Hevs, Hevs'. cbn [bind].
  rewrite (accumulate_same_issue issue issue') by done.
  intros Hm Hm'.
  destruct (decide (S ∈ statuses)) as [HS|HS].
  - destruct (accumulate_run issue statuses now evs)
      as (st & _ & [Hk _] & Htr & Hacc).
    destruct (accumulate_run issue statuses now evs')
      as (st' & _ & [Hk' _] & Htr' & Hacc').
    pose proof (eq_trans (eq_sym Hacc) Hm) as Hf.
    pose proof (eq_trans (eq_sym Hacc') Hm') as Hf'.
    clear Hacc Hacc' Hm Hm'.
    assert (track_of st S = track_of st' S) as Heq.
    { rewrite (Htr S HS), (Htr' S HS).
      rewrite (fold_step_track_events_for issue S evs).
      rewrite (fold_step_track_events_for issue S evs').
      by rewrite Hsame. }
    assert (status_metrics st !! S = status_metrics st' !! S) as Hstart.
    { destruct (proj1 (Hk S) HS) as [v Hv].
      destruct (proj1 (Hk' S) HS) as [v' Hv'].
      pose proof (f_equal duration Heq) as Hd.
      unfold track_of in Hd; cbn [duration] in Hd.
      rewrite Hv, Hv' in Hd |- *. change (v = v') in Hd. by rewrite Hd. }
    exact (finalize_lookup_determined issue now st st' S statuses Heq
             _ _ _ _ _ Hstart Hf Hf').
  - pose proof (accumulate_keyed _ _ _ _ _ Hm S) as Hk.
    pose proof (accumulate_keyed _ _ _ _ _ Hm' S) as Hk'.
    destruct (m !! S) as [v|]; [destruct HS; apply Hk; eauto|].
    destruct (m' !! S) as [v|]; [destruct HS; apply Hk'; eauto|done].
Qed.

Lemma other_statuses_do_not_interfere_witness :
  exists m m',
    get_status_metrics Iso8601.strptime_utc
      (example_issue None "open"
         [status_change "2024-03-01T12:00:10Z" "In Progress" ""])
      ["In Progress"; "Done"] (fun _ => created_example + seconds 100)
    = inr m
    /\ get_status_metrics Iso8601.strptime_utc
         (example_issue None "open"
            [status_change "2024-03-01T12:00:05Z" "Done" "";
             status_change "2024-03-01T12:00:10Z" "In Progress" "";
             status_change "2024-03-01T12:00:50Z" "Archived" "Done"])
         ["In Progress"; "Done"] (fun _ => created_example + seconds 100)
       = inr m'
    /\ m !! "In Progress" = m' !! "In Progress".
Proof.
  eexists. eexists.
  split; [vm_compute; reflexivity|]. split; [vm_compute; reflexivity|].
  apply (other_statuses_do_not_interfere Iso8601.strptime_utc
           (example_issue None "open"
              [status_change "2024-03-01T12:00:10Z" "In Progress" ""])
           (example_issue None "open"
              [status_change "2024-03-01T12:00:05Z" "Done" "";
               status_change "2024-03-01T12:00:10Z" "In Progress" "";
               status_change "2024-03-01T12:00:50Z" "Archived" "Done"])
           ["In Progress"; "Done"] (fun _ => created_example + seconds 100)
           [ {| createdAt := created_example + seconds 10;
                event := Statused; statusName := "In Progress" |} ]
           [ {| createdAt := created_example + seconds 5;
                event := Statused; statusName := "Done" |};
             {| createdAt := created_example + seconds 10;
                event := Statused; statusName := "In Progress" |};
             {| createdAt := created_example + seconds 50;
                event := Unstatused; statusName := "Done" |} ]).
  - reflexivity.
  - reflexivity.
  - reflexivity.
  - vm_compute. reflexivity.
  - vm_compute. reflexivity.
  - vm_compute. reflexivity.
  - vm_compute. reflexivity.
  - vm_compute. reflexivity.
Defined.

(* --------------------------------------------------------------------- *)
(* The extractor on a well-formed timeline                                *)
(* --------------------------------------------------------------------- *)

Lemma status_of_interest_str (s : string) (statuses : list string) :
  status_of_interest (JStr s) statuses
  = if bool_decide (s ∈ statuses) then Some s else None.
Proof. done. Qed.

(* the body of the loop, on the edge of a change *)
Lemma edge_events_of_change (strptime : string -> option datetime)
  (statuses : list string) (acc : list StatusEvent) (ch : Change) :
  (of_interest statuses ch = true ->
   strptime (change_created ch) = Some (change_time ch)) ->
  edge_events strptime statuses acc (edge_of ch)
  = inr (acc ++ events_of_change statuses ch).
Proof.
  intros Hparse. unfold of_interest in Hparse.
  unfold edge_events, edge_of, status_change, events_of_change.
  cbn [getitem assoc String.eqb Ascii.eqb Bool.eqb bind ret contains].
  rewrite !status_of_interest_str. unfold status_event, parse_createdAt.
  cbn [getitem assoc String.eqb Ascii.eqb Bool.eqb bind ret not_empty_str].
  destruct (bool_decide (change_status ch ∈ statuses));
    destruct (negb (String.eqb (change_previous ch) ""));
    destruct (bool_decide (change_previous ch ∈ statuses));
    cbn [andb orb] in *; rewrite ?Hparse by done;
    cbn [bind ret]; rewrite <- ?app_assoc, ?app_nil_r; done.
Qed.

Lemma edges_of_changes (strptime : string -> option datetime)
  (statuses : list string) (changes : list Change) :
  Forall (fun ch => of_interest statuses ch = true ->
                    strptime (change_created ch) = Some (change_time ch))
    changes ->
  forall acc,
    for_each (edge_events strptime statuses) (map edge_of changes) acc
    = inr (acc ++ flat_map (events_of_change statuses) changes).
Proof.
  induction changes as [|ch changes IH]; intros Hall acc.
  - simpl. by rewrite app_nil_r.
  - apply Forall_cons in Hall as [Hch Hall]. cbn [map for_each flat_map].
    rewrite (edge_events_of_change _ _ _ _ Hch). cbn [bind].
    rewrite (IH Hall). by rewrite app_assoc.
Qed.

Lemma timeline_edges_embedded (edges : list json) :
  timeline_edges (embedded_data edges) = inr (JArr edges).
Proof. reflexivity. Qed.

Lemma get_status_events_embedded (strptime : string -> option datetime)
  (issue : Issue) (statuses : list string) (edges : list json) :
  html_content issue = ScriptTag (inr (embedded_data edges)) ->
  get_status_events strptime issue statuses
  = for_each (edge_events strptime statuses) edges [].
Proof. intros Hpage. unfold get_status_events. by rewrite Hpage. Qed.

(** X8. On a page whose timeline is a list of changes of status, each with
    its createdAt, status and previousStatus, get_status_events returns,
    in the order of the timeline and for each change, the ENTERED event of
    the new status when it is in the list, then the LEFT event of the
    previous status when it is not empty and in the list, both at the
    instant of the change.  Only the timestamps of the changes that give
    an event have to be readable. *)
Theorem events_of_well_formed_timeline
  (strptime : string -> option datetime) (issue : Issue)
  (statuses : list string) (changes : list Change) :
  html_content issue
  = ScriptTag (inr (embedded_data (map edge_of changes))) ->
  Forall (fun ch => of_interest statuses ch = true ->
                    strptime (change_created ch) = Some (change_time ch))
    changes ->
  get_status_events strptime issue statuses
  = inr (flat_map (events_of_change statuses) changes).
Proof.
  intros Hpage Hparse.
  rewrite (get_status_events_embedded _ _ _ _ Hpage).
  by rewrite (edges_of_changes _ _ _ Hparse).
Qed.

Lemma events_of_well_formed_timeline_witness :
  get_status_events Iso8601.strptime_utc
    (example_issue None "open"
       [status_change "2024-03-01T12:00:10Z" "In Progress" "";
        status_change "yesterday" "Blocked" "Waiting";
        status_change "2024-03-01T12:01:10Z" "Done" "In Progress";
        status_change "2024-03-01T12:02:00Z" "Done" "Done"])
    ["In Progress"; "Done"]
  = inr [ {| createdAt := created_example + seconds 10; event := Statused;
             statusName := "In Progress" |};
          {| createdAt := created_example + seconds 70; event := Statused;
             statusName := "Done" |};
          {| createdAt := created_example + seconds 70; event := Unstatused;
             statusName := "In Progress" |};
          {| createdAt := created_example + seconds 120; event := Statused;
             statusName := "Done" |};
          {| createdAt := created_example + seconds 120; event := Unstatused;
             statusName := "Done" |} ].
Proof.
  apply (events_of_well_formed_timeline Iso8601.strptime_utc
           (example_issue None "open"
              [status_change "2024-03-01T12:00:10Z" "In Progress" "";
               status_change "yesterday" "Blocked" "Waiting";
               status_change "2024-03-01T12:01:10Z" "Done" "In Progress";
               status_change "2024-03-01T12:02:00Z" "Done" "Done"])
           ["In Progress"; "Done"]
           [ {| change_created := "2024-03-01T12:00:10Z";
                change_time := created_example + seconds 10;
                change_status := "In Progress"; change_previous := "" |};
             {| change_created := "yesterday"; change_time := 0;
                change_status := "Blocked"; change_previous := "Waiting" |};
             {| change_created := "2024-03-01T12:01:10Z";
                change_time := created_example + seconds 70;
                change_status := "Done";
                change_previous := "In Progress" |};
             {| change_created := "2024-03-01T12:02:00Z";
                change_time := created_example + seconds 120;
                change_status := "Done"; change_previous := "Done" |} ]).
  - reflexivity.
  - repeat (apply Forall_cons; split); try apply Forall_nil;
      (vm_compute; first [reflexivity | discriminate]).
Defined.

(* --------------------------------------------------------------------- *)
(* The extractor on an edge that is not well formed                       *)
(* --------------------------------------------------------------------- *)

(* when the body of the loop raises on an edge that follows well-formed
   changes, get_status_events raises: the events of the changes are lost *)
Lemma get_status_events_raises_after (strptime : string -> option datetime)
  (issue : Issue) (statuses : list string) (changes : list Change)
  (edge : json) (after : list json) (e : exn) :
  html_content issue
  = ScriptTag (inr (embedded_data (map edge_of changes ++ edge :: after))) ->
  Forall (fun ch => of_interest statuses ch = true ->
                    strptime (change_created ch) = Some (change_time ch))
    changes ->
  (forall acc, edge_events strptime statuses acc edge = inl e) ->
  get_status_events strptime issue statuses = inl e.
Proof.
  intros Hpage Hparse Hedge.
  rewrite (get_status_events_embedded _ _ _ _ Hpage), for_each_app.
  rewrite (edges_of_changes _ _ _ Hparse). cbn [bind for_each].
  by rewrite Hedge.
Qed.



(** X10. A change that gives an event (its status, or its non-empty
    previous status, is in the list) and whose createdAt strptime cannot
    read makes get_status_events raise a ValueError, also after changes
    that were read well: no event is returned. *)
Theorem unreadable_timestamp_raises
  (strptime : string -> option datetime) (issue : Issue)
  (statuses : list string) (changes : list Change) (ch : Change)
  (after : list json) :
  html_content issue
  = ScriptTag (inr (embedded_data
                      (map edge_of changes ++ edge_of ch :: after))) ->
  Forall (fun ch => of_interest statuses ch = true ->
                    strptime (change_created ch) = Some (change_time ch))
    changes ->
  of_interest statuses ch = true ->
  strptime (change_created ch) = None ->
  get_status_events strptime issue statuses = inl ValueError.
Proof.
  intros Hpage Hparse Hint Hbad.
  apply (get_status_events_raises_after _ _ _ _ _ _ _ Hpage Hparse).
  intros acc. unfold of_interest in Hint.
  unfold edge_events, edge_of, status_change.
  cbn [getitem assoc String.eqb Ascii.eqb Bool.eqb bind ret contains].
  rewrite !status_of_interest_str. unfold status_event, parse_createdAt.
  cbn [getitem assoc String.eqb Ascii.eqb Bool.eqb bind ret not_empty_str].
  rewrite Hbad.
  destruct (bool_decide (change_status ch ∈ statuses)); [done|].
  cbn [orb bind ret] in *. apply andb_prop in Hint as [-> ->]. done.
Qed.

Lemma unreadable_timestamp_raises_witness :
  get_status_events Iso8601.strptime_utc
    (example_issue None "open"
       [status_change "2024-03-01T12:00:10Z" "In Progress" "";
        status_change "2024-03-01 12:01:10" "Done" "In Progress"])
    ["In Progress"]
  = inl ValueError.
Proof.
  apply (unreadable_timestamp_raises Iso8601.strptime_utc
           (example_issue None "open"
              [status_change "2024-03-01T12:00:10Z" "In Progress" "";
               status_change "2024-03-01 12:01:10" "Done" "In Progress"])
           ["In Progress"]
           [ {| change_created := "2024-03-01T12:00:10Z";
                change_time := created_example + seconds 10;
                change_status := "In Progress"; change_previous := "" |} ]
           {| change_created := "2024-03-01 12:01:10"; change_time := 0;
              change_status := "Done"; change_previous := "In Progress" |}
           []).
  - reflexivity.
  - constructor; [|constructor]. intros _. vm_compute. reflexivity.
  - vm_compute. reflexivity.
  - vm_compute. reflexivity.
Defined.

(** X11. A record of the timeline whose node has no "status" is skipped:
    get_status_events returns for the page what it returns for the page
    without that record, whatever else the node holds. *)
Theorem record_without_status_is_skipped
  (strptime : string -> option datetime) (issue issue' : Issue)
  (statuses : list string) (before after : list json)
  (fields : list (string * json)) :
  html_content issue
  = ScriptTag (inr (embedded_data
                      (before ++ JObj [("node", JObj fields)] :: after))) ->
  html_content issue'
  = ScriptTag (inr (embedded_data (before ++ after))) ->
  assoc "status" fields = None ->
  get_status_events strptime issue statuses
  = get_status_events strptime issue' statuses.
Proof.
  intros Hpage Hpage' Hstatus.
  rewrite (get_status_events_embedded _ _ _ _ Hpage).
  rewrite (get_status_events_embedded _ _ _ _ Hpage').
  rewrite !for_each_app.
  destruct (for_each (edge_events strptime statuses) before [])
    as [e|acc]; cbn [bind for_each]; [done|].
  unfold edge_events at 1.
  cbn [getitem assoc String.eqb Ascii.eqb Bool.eqb bind ret contains].
  by rewrite Hstatus.
Qed.

Lemma record_without_status_is_skipped_witness :
  get_status_events Iso8601.strptime_utc
    (example_issue None "open"
       [status_change "2024-03-01T12:00:10Z" "In Progress" "";
        JObj [("node", JObj [("createdAt", JStr "2024-03-01T12:00:30Z");
                             ("label", JStr "bug")])];
        status_change "2024-03-01T12:01:10Z" "Done" "In Progress"])
    ["In Progress"]
  = get_status_events Iso8601.strptime_utc
      (example_issue None "open"
         [status_change "2024-03-01T12:00:10Z" "In Progress" "";
          status_change "2024-03-01T12:01:10Z" "Done" "In Progress"])
      ["In Progress"].
Proof.
  apply (record_without_status_is_skipped Iso8601.strptime_utc _ _ _
           [status_change "2024-03-01T12:00:10Z" "In Progress" ""]
           [status_change "2024-03-01T12:01:10Z" "Done" "In Progress"]
           [("createdAt", JStr "2024-03-01T12:00:30Z");
            ("label", JStr "bug")]).
  - reflexivity.
  - reflexivity.
  - reflexivity.
Defined.

(** X12. Every event that get_status_events returns is about a status of
    the list of the caller. *)
Theorem events_are_of_interest
  (strptime : string -> option datetime) (issue : Issue)
  (statuses : list string) (evs : list StatusEvent) :
  get_status_events strptime issue statuses = inr evs ->
  forall ev, ev ∈ evs -> statusName ev ∈ statuses.
Proof.
  intros Hevs. apply Forall_forall.
  by apply (get_status_events_of_interest _ _ _ _ Hevs).
Qed.

Lemma events_are_of_interest_witness :
  statusName {| createdAt := created_example + seconds 70;
                event := Unstatused; statusName := "In Progress" |}
  ∈ ["In Progress"; "Review"].
Proof.
  apply (events_are_of_interest Iso8601.strptime_utc
           (example_issue None "open"
              [status_change "2024-03-01T12:01:10Z" "Done" "In Progress"])
           ["In Progress"; "Review"]
           [ {| createdAt := created_example + seconds 70;
                event := Unstatused; statusName := "In Progress" |} ]).
  - vm_compute. reflexivity.
  - apply elem_of_cons. by left.
Defined.

(* --------------------------------------------------------------------- *)
(* The keys of the aggregates                                             *)
(* --------------------------------------------------------------------- *)

Lemma summarize_is_Some (time_in_statuses : gmap string (list Q))
  (s : string) :
  let agg := summarize time_in_statuses in
  (is_Some (average_time_in_statuses agg !! s)
   <-> is_Some (time_in_statuses !! s))
  /\ (is_Some (med_time_in_statuses agg !! s)
      <-> is_Some (time_in_statuses !! s))
  /\ (is_Some (ninety_percentile_in_statuses agg !! s)
      <-> is_Some (time_in_statuses !! s)).
Proof.
  unfold summarize; simpl. rewrite !lookup_fmap.
  destruct (time_in_statuses !! s); simpl; repeat split; eauto;
    by intros [? ?].
Qed.

(** X13. The keys of each of the three dicts that
    get_stats_time_in_statuses returns are the statuses of the list
    together with the statuses that have a duration in some item: a status
    that is not in the list is reported as soon as an item has a duration
    for it. *)
Theorem stats_key_set
  (issues_with_metrics : list Classes.IssueWithMetrics)
  (statuses : list string) (s : string) :
  exists avg med p90,
    get_stats_time_in_statuses issues_with_metrics statuses !! "avg"
    = Some avg
    /\ get_stats_time_in_statuses issues_with_metrics statuses !! "med"
       = Some med
    /\ get_stats_time_in_statuses issues_with_metrics statuses !! "90p"
       = Some p90
    /\ (is_Some (avg !! s)
        <-> s ∈ statuses \/ durations_of s issues_with_metrics <> [])
    /\ (is_Some (med !! s)
        <-> s ∈ statuses \/ durations_of s issues_with_metrics <> [])
    /\ (is_Some (p90 !! s)
        <-> s ∈ statuses \/ durations_of s issues_with_metrics <> []).
Proof.
  destruct (stats_lookup issues_with_metrics statuses) as (Ha & Hm & Hp).
  eexists _, _, _. split; [exact Ha|]. split; [exact Hm|].
  split; [exact Hp|].
  destruct (fill_missing_fold statuses s _
              (summarize_aligned (collect_samples issues_with_metrics)))
    as (-> & -> & ->).
  destruct (summarize_is_Some (collect_samples issues_with_metrics) s)
    as (Hsa & Hsm & Hsp).
  assert (is_Some (collect_samples issues_with_metrics !! s)
          <-> durations_of s issues_with_metrics <> []) as Hsamples.
  { rewrite collect_samples_lookup.
    destruct (durations_of s issues_with_metrics); split; try done;
      first [by intros [? ?] | eauto]. }
  case_bool_decide as Hs.
  - repeat split; eauto.
  - rewrite Hsa, Hsm, Hsp, Hsamples. repeat split; try tauto.
    all: by intros [?|?].
Qed.

(* --------------------------------------------------------------------- *)
(* Items without a duration                                               *)
(* --------------------------------------------------------------------- *)

Lemma durations_of_app (s : string)
  (l1 l2 : list Classes.IssueWithMetrics) :
  durations_of s (l1 ++ l2) = durations_of s l1 ++ durations_of s l2.
Proof. unfold durations_of. apply flat_map_app. Qed.

(** X14. An item that has no duration (its status_metrics is None, or is
    a dict that is empty or maps its statuses to None) does not count: the
    result of get_stats_time_in_statuses is the same with and without it,
    wherever it is among the items. *)
Theorem item_without_duration_is_ignored
  (before after : list Classes.IssueWithMetrics)
  (item : Classes.IssueWithMetrics) (statuses : list string) :
  (forall metrics s d,
     Classes.status_metrics item = Some metrics ->
     metrics !! s <> Some (Some d)) ->
  get_stats_time_in_statuses (before ++ item :: after) statuses
  = get_stats_time_in_statuses (before ++ after) statuses.
Proof.
  intros Hnone. unfold get_stats_time_in_statuses. cbn zeta.
  assert (collect_samples (before ++ item :: after)
          = collect_samples (before ++ after)) as ->; [|done].
  apply map_eq. intros s. rewrite !collect_samples_lookup.
  rewrite !durations_of_app.
  change (item :: after) with ([item] ++ after).
  rewrite durations_of_app.
  assert (durations_of s [item] = []) as ->; [|done].
  unfold durations_of. simpl.
  destruct (Classes.status_metrics item) as [metrics|] eqn:Hitem; [|done].
  destruct (metrics !! s) as [[d|]|] eqn:Hs; try done.
  by destruct (Hnone metrics s d).
Qed.

Lemma item_without_duration_is_ignored_witness :
  get_stats_time_in_statuses
    ([item_with "In Progress" (seconds 10)]
     ++ {| Classes.status_metrics := Some (<["In Progress" := None]> ∅) |}
        :: [item_with "In Progress" (seconds 30)])
    ["In Progress"; "Done"]
  = get_stats_time_in_statuses
      ([item_with "In Progress" (seconds 10)]
       ++ [item_with "In Progress" (seconds 30)])
      ["In Progress"; "Done"].
Proof.
  apply item_without_duration_is_ignored.
  intros metrics s d [= <-].
  destruct (decide ("In Progress" = s)) as [<-|Hne].
  - by rewrite lookup_insert_eq.
  - by rewrite lookup_insert_ne, lookup_empty.
Defined.

(* --------------------------------------------------------------------- *)
(* Items that all have the same duration                                  *)
(* --------------------------------------------------------------------- *)

Lemma round_of_integer (x : Q) (n : Z) :
  (x == inject_Z n)%Q -> numpy.round x = n.
Proof.
  intros Hx. unfold numpy.round.
  assert (Qfloor x = n) as -> by (rewrite Hx; apply Qfloor_Z).
  assert ((x - inject_Z n == 0)%Q) as Hzero by (rewrite Hx; ring).
  by rewrite Hzero.
Qed.

Lemma total_seconds_of_seconds (n : Z) :
  (total_seconds (seconds n) == inject_Z n)%Q.
Proof.
  unfold total_seconds, seconds. rewrite inject_Z_mult. field.
Qed.

Lemma insert_sorted_all (q x : Q) (l : list Q) :
  x = q -> Forall (eq q) l -> Forall (eq q) (insert_sorted x l).
Proof.
  intros ->. induction l as [|y l IH]; intros Hall; simpl.
  - by constructor.
  - destruct (Qle_bool q y); [by constructor|].
    apply Forall_cons in Hall as [Hy Hall]. constructor; [done|by apply IH].
Qed.

Lemma sorted_all (q : Q) (l : list Q) :
  Forall (eq q) l -> Forall (eq q) (sorted l).
Proof.
  induction l as [|x l IH]; intros Hall; simpl; [done|].
  apply Forall_cons in Hall as [Hx Hall]. by apply insert_sorted_all; [|apply IH].
Qed.

Lemma length_insert_sorted (x : Q) (l : list Q) :
  length (insert_sorted x l) = S (length l).
Proof.
  induction l as [|y l IH]; simpl; [done|].
  destruct (Qle_bool x y); simpl; [done|]. by rewrite IH.
Qed.

Lemma length_sorted (l : list Q) : length (sorted l) = length l.
Proof.
  induction l as [|x l IH]; simpl; [done|].
  by rewrite length_insert_sorted, IH.
Qed.

Lemma nth_all (q : Q) (l : list Q) (i : nat) :
  Forall (eq q) l -> (i < length l)%nat -> nth i l 0%Q = q.
Proof.
  revert i. induction l as [|x l IH]; intros i Hall Hi; simpl in Hi; [lia|].
  apply Forall_cons in Hall as [Hx Hall].
  destruct i as [|i]; simpl; [done|]. apply IH; [done|lia].
Qed.

Lemma sum_all (q : Q) (l : list Q) :
  Forall (eq q) l ->
  (fold_right Qplus 0 l == inject_Z (Z.of_nat (length l)) * q)%Q.
Proof.
  induction l as [|x l IH]; intros Hall.
  - simpl. ring.
  - apply Forall_cons in Hall as [<- Hall]. cbn [fold_right length].
    rewrite (IH Hall), Nat2Z.inj_succ. unfold Z.succ.
    rewrite inject_Z_plus. ring.
Qed.

Lemma average_all (q : Q) (l : list Q) :
  l <> [] -> Forall (eq q) l -> (numpy.average l == q)%Q.
Proof.
  intros Hne Hall. unfold numpy.average. rewrite (sum_all _ _ Hall).
  field. destruct l as [|x l]; [done|]. simpl length.
  rewrite Nat2Z.inj_succ. unfold Z.succ. intros Heq.
  unfold Qeq in Heq. simpl in Heq. lia.
Qed.

Lemma median_all (q : Q) (l : list Q) :
  l <> [] -> Forall (eq q) l -> (numpy.median l == q)%Q.
Proof.
  intros Hne Hall. unfold numpy.median.
  assert (0 < length l)%nat as Hlen by (destruct l; [done|simpl; lia]).
  pose proof (sorted_all _ _ Hall) as Hs.
  assert (length l / 2 < length l)%nat as Hhalf
    by (apply Nat.div_lt; lia).
  destruct (Nat.even (length l)).
  - rewrite !(nth_all q) by (rewrite ?length_sorted; (done || lia)).
    field.
  - rewrite (nth_all q) by (rewrite ?length_sorted; done). reflexivity.
Qed.

Lemma percentile_all (q : Q) (l : list Q) (p : Z) :
  0 <= p <= 100 ->
  l <> [] -> Forall (eq q) l -> (numpy.percentile l p == q)%Q.
Proof.
  intros Hp Hne Hall. unfold numpy.percentile.
  assert (0 < length l)%nat as Hlen by (destruct l; [done|simpl; lia]).
  pose proof (sorted_all _ _ Hall) as Hs.
  set (vi := (inject_Z (Z.of_nat (length l - 1)) * (inject_Z p / 100))%Q).
  assert (0 <= Qfloor vi <= Z.of_nat (length l - 1)) as Hfloor.
  { assert ((0 <= inject_Z p / 100)%Q /\ (inject_Z p / 100 <= 1)%Q)
      as [Hp0 Hp1].
    { split.
      - apply Qle_shift_div_l; [done|]. rewrite Qmult_0_l.
        change 0%Q with (inject_Z 0). rewrite <- Zle_Qle. lia.
      - apply Qle_shift_div_r; [done|]. rewrite Qmult_1_l.
        change 100%Q with (inject_Z 100). rewrite <- Zle_Qle. lia. }
    assert ((0 <= inject_Z (Z.of_nat (length l - 1)))%Q) as Hm.
    { change 0%Q with (inject_Z 0). rewrite <- Zle_Qle. lia. }
    split.
    - change 0 with (Qfloor 0). apply Qfloor_resp_le.
      unfold vi. by apply Qmult_le_0_compat.
    - rewrite <- (Qfloor_Z (Z.of_nat (length l - 1))).
      apply Qfloor_resp_le. unfold vi.
      rewrite <- (Qmult_1_r (inject_Z (Z.of_nat (length l - 1)))) at 2.
      rewrite !(Qmult_comm (inject_Z (Z.of_nat (length l - 1)))).
      by apply Qmult_le_compat_r. }
  rewrite !(nth_all q); rewrite ?length_sorted; try done; try lia.
  ring.
Qed.

(** X15. When every item that has a duration for status X has the same
    duration, a whole number n of seconds, the three aggregates of X are
    that duration: avg = med = 90p = n seconds, for any number of items. *)
Theorem stats_of_equal_durations
  (issues_with_metrics : list Classes.IssueWithMetrics)
  (statuses : list string) (X : string) (n : Z) (d : timedelta)
  (ds : list timedelta) :
  durations_of X issues_with_metrics = d :: ds ->
  Forall (eq (seconds n)) (d :: ds) ->
  exists avg med p90,
    get_stats_time_in_statuses issues_with_metrics statuses !! "avg"
    = Some avg
    /\ get_stats_time_in_statuses issues_with_metrics statuses !! "med"
       = Some med
    /\ get_stats_time_in_statuses issues_with_metrics statuses !! "90p"
       = Some p90
    /\ avg !! X = Some (Some (seconds n))
    /\ med !! X = Some (Some (seconds n))
    /\ p90 !! X = Some (Some (seconds n)).
Proof.
  intros Hds Hall.
  destruct (stats_of_samples issues_with_metrics statuses X _ _ Hds)
    as (avg & med & p90 & Ha & Hm & Hp & Hax & Hmx & Hpx).
  exists avg, med, p90. split; [done|]. split; [done|]. split; [done|].
  set (q := total_seconds (seconds n)).
  assert (Forall (eq q) (map total_seconds (d :: ds))) as Hq.
  { apply Forall_map. eapply Forall_impl; [exact Hall|].
    intros x <-. reflexivity. }
  assert (map total_seconds (d :: ds) <> []) as Hne by done.
  rewrite Hax, Hmx, Hpx. repeat split; do 3 f_equal; apply round_of_integer.
  - rewrite (average_all q _ Hne Hq). apply total_seconds_of_seconds.
  - rewrite (median_all q _ Hne Hq). apply total_seconds_of_seconds.
  - rewrite (percentile_all q _ 90 ltac:(lia) Hne Hq).
    apply total_seconds_of_seconds.
Qed.

Lemma stats_of_equal_durations_witness :
  exists avg med p90,
    get_stats_time_in_statuses
      [item_with "Done" (seconds 45); item_with "In Progress" (seconds 7);
       item_with "Done" (seconds 45)]
      ["Done"] !! "avg" = Some avg
    /\ get_stats_time_in_statuses
         [item_with "Done" (seconds 45); item_with "In Progress" (seconds 7);
          item_with "Done" (seconds 45)]
         ["Done"] !! "med" = Some med
    /\ get_stats_time_in_statuses
         [item_with "Done" (seconds 45); item_with "In Progress" (seconds 7);
          item_with "Done" (seconds 45)]
         ["Done"] !! "90p" = Some p90
    /\ avg !! "Done" = Some (Some (seconds 45))
    /\ med !! "Done" = Some (Some (seconds 45))
    /\ p90 !! "Done" = Some (Some (seconds 45)).
Proof.
  apply (stats_of_equal_durations _ _ "Done" 45 (seconds 45) [seconds 45]).
  - reflexivity.
  - repeat constructor.
Defined.

(* --------------------------------------------------------------------- *)
(* The order of the items                                                 *)
(* --------------------------------------------------------------------- *)












